(** * IELTS scoring API: feedback tables, band prediction and audio validation

    A shallow embedding of [modelIELTS/app.py] and of the three service
    modules under [modelIELTS/services/], followed by the properties of the
    scoring and transcription flows that hold of that code.

    Conventions of the embedding:
    - a Python [float] is a rational ([Q]); every constant of the source
      (band values, thresholds, limits) is exact in both, and the code under
      study only compares, adds and divides them;
    - a Python [str] that the code measures or inspects (file names,
      transcripts) is a list of code points ([pystr]); the feedback texts
      and dictionary keys, which the code only passes around, are [string]
      literals;
    - a Python [dict] is a [gmap], a [set] a [gset];
    - an exception is a [Raise] in the [result] type, and the file system
      touched by the temporary-file manager is an explicit [gmap] from paths
      to contents. *)

From Stdlib Require Import QArith Lia Lqa Sorted Permutation.
From stdpp Require Import gmap strings list sorting.

Local Open Scope Q_scope.

(** ** Floats as rationals *)

(** [a < b] on floats, as a boolean. *)
Definition Qltb (a b : Q) : bool := negb (Qle_bool b a).

(** Python's built-in [sum]: a left fold that starts from [0]. *)
Definition py_sum (xs : list Q) : Q := fold_left Qplus xs 0.

(** ** Python strings *)

Module PyStr.

(** A [str] is a sequence of Unicode code points. *)
Definition pystr : Type := list N.

(** An ASCII literal as a [str]. *)
Definition py (s : string) : pystr :=
  map Ascii.N_of_ascii (String.list_ascii_of_string s).

(** [str.isspace] on one code point: the Unicode white space characters. *)
Definition isspace (c : N) : bool :=
  ((9 <=? c) && (c <=? 13) || (28 <=? c) && (c <=? 32)
   || (c =? 133) || (c =? 160) || (c =? 5760)
   || (8192 <=? c) && (c <=? 8202)
   || (c =? 8232) || (c =? 8233) || (c =? 8239) || (c =? 8287)
   || (c =? 12288))%N.

Fixpoint lstrip (s : pystr) : pystr :=
  match s with
  | c :: s' => if isspace c then lstrip s' else s
  | [] => []
  end.

Definition rstrip (s : pystr) : pystr := rev (lstrip (rev s)).

(** [s.strip()] *)
Definition strip (s : pystr) : pystr := rstrip (lstrip s).

(** [len(s.split())]: the number of maximal runs of non-space characters.
    [inword] tells whether the previous character belonged to a word. *)
Fixpoint count_words (inword : bool) (s : pystr) : nat :=
  match s with
  | [] => 0
  | c :: s' =>
      if isspace c then count_words false s'
      else if inword then count_words true s'
      else S (count_words true s')
  end.

Definition word_count (s : pystr) : nat := count_words false s.

(** [str.lower] on the ASCII letters.  The only code point outside ASCII
    whose lower case is an ASCII letter is the Kelvin sign (to [k]), and no
    supported extension contains a [k]: membership of a lowered suffix in
    the supported set is therefore decided as in Python. *)
Definition lower_char (c : N) : N :=
  if ((65 <=? c) && (c <=? 90))%N then (c + 32)%N else c.

Definition lower (s : pystr) : pystr := map lower_char s.

Definition slash : N := 47.
Definition dot : N := 46.

(** [s.split(sep)] for a one-character separator. *)
Fixpoint split_on (sep : N) (s : pystr) : list pystr :=
  match s with
  | [] => [[]]
  | c :: s' =>
      if (c =? sep)%N then [] :: split_on sep s'
      else match split_on sep s' with
           | p :: ps => (c :: p) :: ps
           | [] => [[c]]
           end
  end.

(** [s.rfind(c)]: the index of the last occurrence. *)
Fixpoint rfind (c : N) (s : pystr) : option nat :=
  match s with
  | [] => None
  | x :: s' =>
      match rfind c s' with
      | Some i => Some (S i)
      | None => if (x =? c)%N then Some O else None
      end
  end.

(** [PurePosixPath(p).name]: the last component, where empty components
    and [.] components are dropped by the path parser. *)
Definition path_name (p : pystr) : pystr :=
  List.last
    (List.filter (fun part => negb (bool_decide (part = [] \/ part = [dot])))
                 (split_on slash p))
    [].

(** [PurePosixPath(p).suffix]:
    [i = name.rfind('.')]; [name[i:]] if [0 < i < len(name) - 1], else [''] *)
Definition path_suffix (p : pystr) : pystr :=
  let name := path_name p in
  match rfind dot name with
  | Some i =>
      if ((0 <? i) && (i <? length name - 1))%nat then drop i name else []
  | None => []
  end.

End PyStr.
Import PyStr.

(** ** Exceptions and results *)

(** The message of an [AudioValidationError], one constructor per [raise]
    site of [speech_service.py], with the values formatted into it. *)
Inductive validation_reason : Type :=
  | NotFound (file_path : pystr)     (* "Audio file not found: ..." *)
  | UnsupportedFormat (suffix : pystr)
      (* "Unsupported audio format: ... Supported formats: ..." *)
  | UnsupportedUpload (suffix : pystr)
      (* "Unsupported audio format: ... Supported: ..." *)
  | TooLarge (file_size : N)         (* "Audio file too large: ..." *)
  | EmptyFile                        (* "Audio file is empty" *)
  | TooLong (duration : Q).          (* "Audio too long: ..." *)

Inductive exn : Type :=
  | AudioValidationError (reason : validation_reason)
  | WhisperLoadError        (* RuntimeError "Failed to load Whisper model" *)
  | TranscriptionError      (* RuntimeError "Transcription failed" *)
  | OSError                 (* a failed write to the temporary file *)
  | FileNotFoundError       (* the speaking model directory is absent *)
  | KeyError (key : nat)    (* a class index missing from a table *)
  | ValueError.             (* argmax of an empty sequence *)

Inductive result (A : Type) : Type :=
  | Ok (a : A)
  | Raise (e : exn).
Arguments Ok {A} a.
Arguments Raise {A} e.

#[global] Instance result_ret : MRet result := fun A a => Ok a.
#[global] Instance result_bind : MBind result :=
  fun A B f r => match r with Ok a => f a | Raise e => Raise e end.

(** A dictionary read [d[k]] with an integer key: [KeyError] when absent. *)
Definition getitem {V} (d : gmap nat V) (k : nat) : result V :=
  match d !! k with Some v => Ok v | None => Raise (KeyError k) end.

(** [enumerate] turned into a dictionary, as in [{i: x for i, x in enumerate(l)}]. *)
Definition dict_of_enumerate {V} (l : list V) : gmap nat V :=
  list_to_map (zip (seq 0 (length l)) l).

(** ** numpy *)

(** [np.argmax]: the first index at which the maximum is attained.
    [best_i] and [best] are the running maximum, [i] the index of the head
    of [xs]. *)
Fixpoint argmax_from (best_i : nat) (best : Q) (i : nat) (xs : list Q) : nat :=
  match xs with
  | [] => best_i
  | x :: xs' =>
      if Qltb best x then argmax_from i x (S i) xs'
      else argmax_from best_i best (S i) xs'
  end.

Definition np_argmax (xs : list Q) : result nat :=
  match xs with
  | [] => Raise ValueError
  | x :: xs' => Ok (argmax_from 0 x 1 xs')
  end.

(** [np.argsort] in ascending order of the keys.  numpy sorts a partition of
    at most 16 entries by insertion, which keeps entries with equal keys in
    index order; the class vectors sorted here have 12 entries. *)
Fixpoint insert_by (key : nat -> Q) (i : nat) (sorted : list nat) : list nat :=
  match sorted with
  | [] => [i]
  | j :: rest =>
      if Qle_bool (key i) (key j) then i :: j :: rest
      else j :: insert_by key i rest
  end.

Fixpoint isort_by (key : nat -> Q) (idxs : list nat) : list nat :=
  match idxs with
  | [] => []
  | i :: rest => insert_by key i (isort_by key rest)
  end.

Definition np_argsort (xs : list Q) : list nat :=
  isort_by (fun i => nth i xs 0) (seq 0 (length xs)).

(** Index [i] does not come after index [j] in the order of their keys. *)
Definition key_le (key : nat -> Q) (i j : nat) : Prop := key i <= key j.

(** [np.max]: the largest entry; it raises on an empty array. *)
Definition np_max (xs : list Q) : result Q :=
  match xs with
  | [] => Raise ValueError
  | x :: xs' => Ok (fold_left (fun m y => if Qltb m y then y else m) xs' x)
  end.

(** What a function returns or raises when, besides the exceptions of
    [exn], an index can be out of range. *)
Inductive outcome (A : Type) : Type :=
  | Returns (a : A)
  | Raises (e : exn)
  | RaisesIndexError (index : nat).
Arguments Returns {A} a.
Arguments Raises {A} e.
Arguments RaisesIndexError {A} index.

(** ** The world outside the repository

    The pretrained models, the Whisper library and the operating system are
    not part of the code under study.  Their answers are the fields of a
    [World]; every property below is stated for all worlds. *)

Inductive whisper_task : Type := Transcribe | Translate.

(** A segment dictionary of Whisper's output; each key may be missing. *)
Record Segment : Type := {
  seg_start : option Q;
  seg_end : option Q;
  seg_text : option pystr;
  no_speech_prob : option Q
}.

(** The dictionary returned by [model.transcribe]. *)
Record WhisperOutput : Type := {
  out_text : option pystr;
  out_language : option pystr;
  out_segments : option (list Segment)
}.

(** Where storing the payload fails, when it does.  [NamedTemporaryFile]
    may fail to create the file.  [write] only fills the buffer of the file
    object unless the payload is larger than that buffer, so a refusal of
    the operating system shows either inside [write], or when the [with]
    block closes the file and the buffer is flushed.  [written] is the
    number of bytes of the payload that reached the file. *)
Inductive write_failure : Type :=
  | FailsOnCreate
  | FailsInWrite (written : nat)
  | FailsOnClose (written : nat).

Record World : Type := {
  (** [probs] in [predict_writing_band]: the softmax of the writing model's
      logits for the essay *)
  writing_probs : pystr -> list Q;
  (** [os.path.exists] of the speaking model directory *)
  speaking_model_exists : bool;
  (** row 0 of the speaking model's logits for the text *)
  speaking_logits : pystr -> list Q;
  (** the random part of the name [tempfile] picks *)
  tmp_rand : pystr;
  (** whether writing the payload to the temporary file succeeds: the file
      is created, written and closed without an error *)
  tmp_write_ok : bool;
  (** where the error is raised when it does not *)
  tmp_write_failure : write_failure;
  (** whether [os.unlink] of the temporary file succeeds *)
  unlink_ok : bool;
  (** [whisper.load_audio]: the number of 16 kHz samples decoded from the
      file, [None] when decoding raises *)
  load_audio : list Byte.byte -> option N;
  (** whether the Whisper model can be loaded *)
  whisper_model_ok : bool;
  (** [model.transcribe] on the file's content: [None] when it raises *)
  whisper_transcribe :
    list Byte.byte -> pystr -> whisper_task -> option WhisperOutput
}.

(** A feedback bundle: criterion name to text. *)
Abbreviation FeedbackBundle := (gmap string string).

Local Open Scope string_scope.

(** ** services/writing_service.py *)

Module WritingService.

Definition writing_feedback_0 : gmap string string :=
  list_to_map
    [ ("task_response",
       "Bài viết chưa trả lời đầy đủ yêu cầu đề bài. Hãy tập trung hiểu rõ câu hỏi và đưa ra các ý chính liên quan.");
      ("coherence_cohesion",
       "Cấu trúc bài cần cải thiện. Sử dụng các đoạn văn rõ ràng với câu chủ đề và từ nối.");
      ("vocabulary",
       "Vốn từ vựng còn hạn chế. Cần học thêm từ vựng theo chủ đề và các cụm từ cố định (collocations).");
      ("grammar",
       "Nhiều lỗi ngữ pháp ảnh hưởng đến ý nghĩa. Cần luyện tập các cấu trúc câu cơ bản và các thì phổ biến.");
      ("level",
       "Cần cải thiện nhiều");
      ("suggestion",
       "Tập trung vào việc hiểu đề bài, xây dựng cấu trúc bài viết rõ ràng, và luyện tập ngữ pháp cơ bản.") ].

Definition writing_feedback_1 : gmap string string :=
  list_to_map
    [ ("task_response",
       "Bạn đã trả lời được yêu cầu cơ bản nhưng cần phát triển ý tưởng sâu hơn với ví dụ cụ thể.");
      ("coherence_cohesion",
       "Bài viết có tổ chức tương đối nhưng cần cải thiện cách liên kết ý. Sử dụng đa dạng từ nối hơn.");
      ("vocabulary",
       "Vốn từ đủ dùng cho bài viết. Hãy thử dùng từ ngữ đa dạng hơn và tránh lặp từ.");
      ("grammar",
       "Có một số lỗi ngữ pháp nhưng không ảnh hưởng nhiều đến ý nghĩa. Cần luyện thêm câu phức.");
      ("level",
       "Đạt yêu cầu cơ bản");
      ("suggestion",
       "Phát triển ý tưởng chi tiết hơn, học thêm từ vựng học thuật, và đa dạng hóa cấu trúc câu.") ].

Definition writing_feedback_2 : gmap string string :=
  list_to_map
    [ ("task_response",
       "Bài viết trả lời tốt yêu cầu đề bài với các ý được phát triển khá rõ ràng.");
      ("coherence_cohesion",
       "Bài viết có logic tốt với việc sử dụng hiệu quả các phương tiện liên kết.");
      ("vocabulary",
       "Vốn từ khá phong phú, sử dụng được một số từ vựng học thuật và collocations.");
      ("grammar",
       "Ngữ pháp khá tốt với đa dạng cấu trúc câu. Có một số lỗi nhỏ không đáng kể.");
      ("level",
       "Khá tốt");
      ("suggestion",
       "Để đạt band cao hơn, cần sử dụng từ vựng tinh tế hơn và đa dạng cấu trúc ngữ pháp phức tạp.") ].

Definition writing_feedback_3 : gmap string string :=
  list_to_map
    [ ("task_response",
       "Bài viết phát triển tốt với quan điểm rõ ràng và các ý tưởng mở rộng, có chiều sâu.");
      ("coherence_cohesion",
       "Tổ chức logic xuất sắc với việc sử dụng linh hoạt các phương tiện liên kết.");
      ("vocabulary",
       "Vốn từ phong phú, sử dụng linh hoạt và chính xác các từ vựng học thuật.");
      ("grammar",
       "Sử dụng đa dạng cấu trúc ngữ pháp một cách chính xác và tự nhiên.");
      ("level",
       "Tốt");
      ("suggestion",
       "Bài viết đã ở mức cao. Để hoàn thiện hơn, chú ý đến các chi tiết nhỏ và sự tinh tế trong diễn đạt.") ].

Definition writing_feedback_4 : gmap string string :=
  list_to_map
    [ ("task_response",
       "Bài viết xuất sắc với phân tích sâu sắc và lập luận thuyết phục, đáp ứng hoàn hảo yêu cầu đề.");
      ("coherence_cohesion",
       "Tổ chức hoàn hảo, mạch lạc tự nhiên, các ý được liên kết một cách tinh tế.");
      ("vocabulary",
       "Vốn từ phong phú và tinh tế, sử dụng chính xác các từ vựng học thuật và idiomatic expressions.");
      ("grammar",
       "Ngữ pháp hoàn hảo với đa dạng cấu trúc phức tạp, gần như không có lỗi.");
      ("level",
       "Xuất sắc");
      ("suggestion",
       "Bài viết đạt mức độ rất cao. Tiếp tục duy trì và phát triển phong cách viết của bạn.") ].

Definition build_writing_feedback (band : Q) : FeedbackBundle :=
  if Qltb band 5.0 then writing_feedback_0
  else if Qltb band 6.0 then writing_feedback_1
  else if Qltb band 7.0 then writing_feedback_2
  else if Qltb band 8.0 then writing_feedback_3
  else writing_feedback_4.

End WritingService.

(** ** services/speaking_service.py *)

Module SpeakingService.

Definition CEFR_LABELS : list string := ["A1"; "A2"; "B1"; "B2"; "C1"; "C2"].
Definition ID2LABEL : gmap nat string := dict_of_enumerate CEFR_LABELS.
Definition CEFR_TO_IELTS : gmap string Q :=
  list_to_map
    [ ("A1", 2.5); ("A2", 3.5); ("B1", 5.0);
      ("B2", 6.5); ("C1", 7.5); ("C2", 8.5) ].

(** [_load_model]: fails when the model directory does not exist. *)
Definition _load_model (w : World) : result unit :=
  if speaking_model_exists w then Ok tt else Raise FileNotFoundError.

Definition predict_cefr_and_band (w : World) (text : pystr)
  : result (string * Q) :=
  _ ← _load_model w;
  let logits := speaking_logits w text in
  pred_id ← np_argmax logits;
  cefr ← getitem ID2LABEL pred_id;
  let band := default 0.0 (CEFR_TO_IELTS !! cefr) in
  Ok (cefr, band).

Definition speaking_feedback_0 : gmap string string :=
  list_to_map
    [ ("fluency_coherence",
       "Tốc độ nói còn chậm với nhiều lần dừng. Hãy luyện nói liên tục hơn về các chủ đề quen thuộc.");
      ("vocabulary",
       "Vốn từ còn hạn chế. Cần học thêm các cụm diễn đạt hàng ngày và từ vựng theo chủ đề.");
      ("grammar",
       "Còn nhiều lỗi ngữ pháp cơ bản. Tập trung luyện các thì hiện tại, quá khứ và tương lai đơn.");
      ("pronunciation",
       "Phát âm có thể gây khó hiểu cho người nghe. Luyện tập phát âm từng âm và trọng âm từ.") ].

Definition speaking_feedback_1 : gmap string string :=
  list_to_map
    [ ("fluency_coherence",
       "Bạn có thể duy trì bài nói về chủ đề quen thuộc với một chút do dự. Sử dụng thêm các từ nối.");
      ("vocabulary",
       "Vốn từ tốt cho các chủ đề quen thuộc. Mở rộng thêm các cụm diễn đạt và collocations.");
      ("grammar",
       "Kiểm soát tốt các cấu trúc đơn giản. Luyện thêm câu phức và câu điều kiện.");
      ("pronunciation",
       "Phát âm khá rõ ràng. Cần cải thiện ngữ điệu và cách nối âm.") ].

Definition speaking_feedback_2 : gmap string string :=
  list_to_map
    [ ("fluency_coherence",
       "Bạn nói trôi chảy, chỉ thỉnh thoảng do dự. Sử dụng tuyệt vời các từ nối.");
      ("vocabulary",
       "Vốn từ phong phú với việc sử dụng tốt thành ngữ và collocations.");
      ("grammar",
       "Kiểm soát nhất quán các cấu trúc phức tạp, chỉ thỉnh thoảng có lỗi nhỏ.");
      ("pronunciation",
       "Phát âm rõ ràng, tự nhiên với việc kiểm soát tốt trọng âm và ngữ điệu.") ].

Definition build_speaking_feedback (cefr : string) (band : Q)
  : FeedbackBundle :=
  if Qltb band 5.0 then speaking_feedback_0
  else if Qltb band 6.5 then speaking_feedback_1
  else speaking_feedback_2.

(** The dictionary comprehension
    [{CEFR_LABELS[i]: float(probs[i]) for i in range(len(CEFR_LABELS))}],
    from index [i] on, added to [d]. *)
Fixpoint label_probabilities (d : gmap string Q) (labels : list string)
    (i : nat) (probs : list Q) : outcome (gmap string Q) :=
  match labels with
  | [] => Returns d
  | label :: rest =>
      match probs !! i with
      | None => RaisesIndexError i
      | Some p => label_probabilities (<[label := p]> d) rest (S i) probs
      end
  end.

(** [get_cefr_probabilities]; [exp] stands for [np.exp]. *)
Definition get_cefr_probabilities (exp : Q -> Q) (w : World) (text : pystr)
  : outcome (gmap string Q) :=
  match _load_model w with
  | Raise e => Raises e
  | Ok _ =>
      let logits := speaking_logits w text in
      match np_max logits with
      | Raise e => Raises e
      | Ok largest =>
          let exp_logits := map (fun l => exp (l - largest)) logits in
          let total := py_sum exp_logits in
          let probs := map (fun e => e / total) exp_logits in
          label_probabilities ∅ CEFR_LABELS 0 probs
      end
  end.

End SpeakingService.

(** ** services/speech_service.py *)

Module SpeechService.

Definition SUPPORTED_AUDIO_FORMATS : gset pystr :=
  {[ py ".mp3"; py ".wav"; py ".m4a"; py ".flac";
     py ".ogg"; py ".webm"; py ".mp4" ]}.
Definition MAX_AUDIO_DURATION_SECONDS : Q := 300.
Definition SAMPLE_RATE : Q := 16000.

(** The files that exist, with their contents. *)
Abbreviation filesystem := (gmap pystr (list Byte.byte)).

(** [len] of a byte string, and [st_size] of a file holding it. *)
Definition size_of (content : list Byte.byte) : N := N.of_nat (length content).

Definition validate_audio_file (fs : filesystem) (file_path : pystr)
  : result unit :=
  match fs !! file_path with
  | None => Raise (AudioValidationError (NotFound file_path))
  | Some content =>
      let suffix := lower (path_suffix file_path) in
      if negb (bool_decide (suffix ∈ SUPPORTED_AUDIO_FORMATS)) then
        Raise (AudioValidationError (UnsupportedFormat suffix))
      else
        let max_size_bytes := (25 * 1024 * 1024)%N in
        let file_size := size_of content in
        if (max_size_bytes <? file_size)%N then
          Raise (AudioValidationError (TooLarge file_size))
        else if (file_size =? 0)%N then
          Raise (AudioValidationError EmptyFile)
        else Ok tt
  end.

(** Any exception while decoding is caught and turned into [0.0]. *)
Definition get_audio_duration (w : World) (fs : filesystem)
    (file_path : pystr) : Q :=
  match fs !! file_path with
  | Some content =>
      match load_audio w content with
      | Some samples => inject_Z (Z.of_N samples) / SAMPLE_RATE
      | None => 0.0
      end
  | None => 0.0
  end.

(** The path [tempfile.NamedTemporaryFile] creates for a suffix, in the
    default directory [/tmp]: the prefix [tmp], a random part, the suffix. *)
Definition temp_path_for (w : World) (suffix : pystr) : pystr :=
  (py "/tmp/tmp" ++ tmp_rand w ++ suffix)%list.

(** The context manager [temp_audio_file], applied to the body of its
    [with] block.  The file is created, then written, then [temp_path] is
    assigned, then the file is closed.  When creating the file raises
    there is no file.  When [write] raises, [temp_path] is still [None]
    and the [finally] clause has nothing to delete: the file stays.  When
    closing the file raises, [temp_path] is set, the body is not run and
    the [finally] clause deletes the file as it does after the body: it
    unlinks the file if it still exists, and swallows a failure of
    [os.unlink] after logging it. *)
Definition temp_audio_file {A} (w : World) (content : list Byte.byte)
    (suffix : pystr) (body : pystr -> filesystem -> filesystem * result A)
    (fs : filesystem) : filesystem * result A :=
  let name := temp_path_for w suffix in
  if negb (tmp_write_ok w) then
    match tmp_write_failure w with
    | FailsOnCreate => (fs, Raise OSError)
    | FailsInWrite written =>
        (<[name := take written content]> fs, Raise OSError)
    | FailsOnClose written =>
        let temp_path := name in
        let fs' := <[name := take written content]> fs in
        let fs'' :=
          if bool_decide (is_Some (fs' !! temp_path)) then
            if unlink_ok w then delete temp_path fs' else fs'
          else fs' in
        (fs'', Raise OSError)
    end
  else
    let temp_path := name in
    let '(fs', r) := body temp_path (<[name := content]> fs) in
    let fs'' :=
      if bool_decide (is_Some (fs' !! temp_path)) then
        if unlink_ok w then delete temp_path fs' else fs'
      else fs' in
    (fs'', r).

Record TranscriptionResult : Type := {
  text : pystr;
  language : pystr;
  duration : Q;
  segments : list Segment;
  confidence : option Q
}.

(** [confidence] as computed inside [transcribe_audio]. *)
Definition segment_confidence (segments : list Segment) : option Q :=
  match segments with
  | [] => None
  | _ =>
      let probs := map (fun seg => default 0 (no_speech_prob seg)) segments in
      match probs with
      | [] => None
      | _ => Some (1.0 - py_sum probs / inject_Z (Z.of_nat (length probs)))
      end
  end.

Definition transcribe_audio (w : World) (fs : filesystem)
    (file_path : pystr) (language : pystr) (task : whisper_task)
    (include_segments : bool) : result TranscriptionResult :=
  _ ← validate_audio_file fs file_path;
  let duration := get_audio_duration w fs file_path in
  if Qltb MAX_AUDIO_DURATION_SECONDS duration then
    Raise (AudioValidationError (TooLong duration))
  else if negb (whisper_model_ok w) then Raise WhisperLoadError
  else
    match whisper_transcribe w (default [] (fs !! file_path)) language task with
    | None => Raise TranscriptionError
    | Some result =>
        let text := strip (default [] (out_text result)) in
        let detected_language := default language (out_language result) in
        let segments :=
          if include_segments then default [] (out_segments result) else [] in
        let confidence := segment_confidence segments in
        Ok {| text := text; language := detected_language;
              duration := duration; segments := segments;
              confidence := confidence |}
    end.

(** [Path(filename).suffix.lower() or ".wav"], the [suffix] of
    [transcribe_audio_bytes]. *)
Definition upload_suffix (filename : pystr) : pystr :=
  match lower (path_suffix filename) with
  | [] => py ".wav"
  | s => s
  end.

Definition transcribe_audio_bytes (w : World) (fs : filesystem)
    (audio_bytes : list Byte.byte) (filename : pystr) (language : pystr)
    (task : whisper_task) (include_segments : bool)
  : filesystem * result TranscriptionResult :=
  let suffix := upload_suffix filename in
  if negb (bool_decide (suffix ∈ SUPPORTED_AUDIO_FORMATS)) then
    (fs, Raise (AudioValidationError (UnsupportedUpload suffix)))
  else
    temp_audio_file w audio_bytes suffix
      (fun temp_path fs' =>
         (fs', transcribe_audio w fs' temp_path language task include_segments))
      fs.

(** *** The Whisper model manager *)

Definition WHISPER_MODEL_SIZE : string := "base".
Definition MODEL_SIZES : list string :=
  ["tiny"; "base"; "small"; "medium"; "large"].

Module WhisperModelManager.

(** The attributes of the singleton.  A loaded model is known by the
    size it was loaded for. *)
Record t : Type := { _model : option string; _model_size : string }.

Definition initial : t :=
  {| _model := None; _model_size := WHISPER_MODEL_SIZE |}.

(** [_load_model]; [load_ok size] tells whether [whisper.load_model]
    succeeds for the size at this moment. *)
Definition _load_model (load_ok : string -> bool) (self : t)
  : t * result unit :=
  if load_ok (_model_size self) then
    ({| _model := Some (_model_size self);
        _model_size := _model_size self |}, Ok tt)
  else (self, Raise WhisperLoadError).

(** The property [model]: the manager afterwards, the sizes
    [whisper.load_model] was called for, and the value returned. *)
Definition model (load_ok : string -> bool) (self : t)
  : t * list string * result (option string) :=
  match _model self with
  | None =>
      let '(self', r) := _load_model load_ok self in
      (self', [_model_size self], _ ← r; Ok (_model self'))
  | Some _ => (self, [], Ok (_model self))
  end.

Definition change_model_size (size : string) (self : t)
  : t * result unit :=
  if negb (bool_decide (size ∈ MODEL_SIZES)) then (self, Raise ValueError)
  else if negb (bool_decide (size = _model_size self)) then
    ({| _model := None; _model_size := size |}, Ok tt)
  else (self, Ok tt).

Definition device (cuda_available : bool) : string :=
  if cuda_available then "cuda" else "cpu".

Definition model_size (self : t) : string := _model_size self.

(** A use of the manager, and the manager after a sequence of uses,
    whatever each use returned or raised. *)
Inductive use : Type :=
  | Access (load_ok : string -> bool)
  | ChangeSize (size : string).

Definition after_use (self : t) (u : use) : t :=
  match u with
  | Access load_ok => (model load_ok self).1.1
  | ChangeSize size => (change_model_size size self).1
  end.

Definition after_uses (uses : list use) (self : t) : t :=
  fold_left after_use uses self.

End WhisperModelManager.

(** The dictionary of [get_whisper_info]. *)
Record WhisperInfo : Type := {
  model_size : string;
  device : string;
  supported_formats : gset pystr;
  max_duration_seconds : Q;
  max_file_size_mb : N;
  model_loaded : bool
}.

Definition get_whisper_info (cuda_available : bool)
    (manager : WhisperModelManager.t) : WhisperInfo :=
  {| model_size := WhisperModelManager.model_size manager;
     device := WhisperModelManager.device cuda_available;
     supported_formats := SUPPORTED_AUDIO_FORMATS;
     max_duration_seconds := MAX_AUDIO_DURATION_SECONDS;
     max_file_size_mb := 25;
     model_loaded :=
       bool_decide (WhisperModelManager._model manager <> None) |}.

(** [preload_model]: an access to [model] whose value is dropped. *)
Definition preload_model (load_ok : string -> bool)
    (manager : WhisperModelManager.t)
  : WhisperModelManager.t * list string * result unit :=
  let '(manager', loads, r) := WhisperModelManager.model load_ok manager in
  (manager', loads, _ ← r; Ok tt).

End SpeechService.

(** ** app.py *)

Module App.

Definition ENABLE_WHISPER : bool := true.

Definition WRITING_BAND_CLASSES : list Q :=
  [3.5; 4.0; 4.5; 5.0; 5.5; 6.0; 6.5; 7.0; 7.5; 8.0; 8.5; 9.0].
Definition WRITING_IDX_TO_BAND : gmap nat Q :=
  dict_of_enumerate WRITING_BAND_CLASSES.

Definition CEFR_LABELS : list string := ["A1"; "A2"; "B1"; "B2"; "C1"; "C2"].
Definition ID2LABEL : gmap nat string := dict_of_enumerate CEFR_LABELS.
Definition CEFR_TO_IELTS : gmap string Q :=
  list_to_map
    [ ("A1", 2.5); ("A2", 3.5); ("B1", 5.0);
      ("B2", 6.5); ("C1", 7.5); ("C2", 8.5) ].

(** [ModelManager.get_speaking_model]: the availability check. *)
Definition get_speaking_model (w : World) : result unit :=
  if speaking_model_exists w then Ok tt else Raise FileNotFoundError.

(** One entry of [top_predictions]. *)
Record Prediction : Type := { band : Q; probability : Q }.

(** The dictionary returned by [predict_writing_band]. *)
Record BandPrediction : Type := {
  predicted_band : Q;
  predicted_confidence : Q;
  predicted_top : list Prediction
}.

(** The list comprehension building [top_predictions]. *)
Fixpoint top_predictions_of (probs : list Q) (top_indices : list nat)
  : result (list Prediction) :=
  match top_indices with
  | [] => Ok []
  | idx :: rest =>
      b ← getitem WRITING_IDX_TO_BAND idx;
      ps ← top_predictions_of probs rest;
      Ok ({| band := b; probability := nth idx probs 0 |} :: ps)
  end.

Definition predict_writing_band (w : World) (essay : pystr)
  : result BandPrediction :=
  let probs := writing_probs w essay in
  pred_idx ← np_argmax probs;
  let confidence := nth pred_idx probs 0 in
  let top_indices := take 3 (rev (np_argsort probs)) in
  top_predictions ← top_predictions_of probs top_indices;
  b ← getitem WRITING_IDX_TO_BAND pred_idx;
  Ok {| predicted_band := b; predicted_confidence := confidence;
        predicted_top := top_predictions |}.

Definition predict_cefr_and_band (w : World) (text : pystr)
  : result (string * Q) :=
  _ ← get_speaking_model w;
  let logits := speaking_logits w text in
  pred_id ← np_argmax logits;
  cefr ← getitem ID2LABEL pred_id;
  let band := default 0.0 (CEFR_TO_IELTS !! cefr) in
  Ok (cefr, band).

Definition writing_feedback_0 : gmap string string :=
  list_to_map
    [ ("task_response",
       "Bài viết chưa trả lời đầy đủ yêu cầu đề bài. Hãy tập trung hiểu rõ câu hỏi và đưa ra các ý chính liên quan.");
      ("coherence_cohesion",
       "Cấu trúc bài cần cải thiện. Sử dụng các đoạn văn rõ ràng với câu chủ đề và từ nối.");
      ("vocabulary",
       "Vốn từ vựng còn hạn chế. Cần học thêm từ vựng theo chủ đề và các cụm từ cố định (collocations).");
      ("grammar",
       "Nhiều lỗi ngữ pháp ảnh hưởng đến ý nghĩa. Cần luyện tập các cấu trúc câu cơ bản và các thì phổ biến.") ].

Definition writing_feedback_1 : gmap string string :=
  list_to_map
    [ ("task_response",
       "Bài viết đã đề cập đến yêu cầu đề nhưng chưa đầy đủ. Hãy mở rộng ý tưởng với các ví dụ cụ thể và chi tiết hơn.");
      ("coherence_cohesion",
       "Cấu trúc bài cần cải thiện. Mỗi đoạn văn cần có câu chủ đề rõ ràng và các câu hỗ trợ. Sử dụng đa dạng hơn các từ nối như 'furthermore', 'however', 'consequently'.");
      ("vocabulary",
       "Vốn từ cơ bản, có xu hướng lặp lại. Hãy học thêm synonyms và các cụm từ học thuật như 'it is widely believed that', 'there is a growing concern about'.");
      ("grammar",
       "Lỗi ngữ pháp xuất hiện khá thường xuyên. Cần chú ý đến subject-verb agreement, article usage, và các thì động từ.") ].

Definition writing_feedback_2 : gmap string string :=
  list_to_map
    [ ("task_response",
       "Bạn đã trả lời được yêu cầu đề bài nhưng một số điểm có thể phát triển thêm với ví dụ cụ thể hơn.");
      ("coherence_cohesion",
       "Bài viết có tổ chức hợp lý nhưng có thể cải thiện cách chia đoạn. Sử dụng đa dạng hơn các từ nối và tránh lặp lại 'firstly, secondly, thirdly'.");
      ("vocabulary",
       "Vốn từ đủ dùng cho bài viết. Hãy thử dùng từ ngữ phức tạp hơn như collocations và idiomatic expressions.");
      ("grammar",
       "Ngữ pháp khá tốt với một số lỗi nhỏ. Cần luyện thêm các cấu trúc câu phức tạp như relative clauses, conditionals, và passive voice.") ].

Definition writing_feedback_3 : gmap string string :=
  list_to_map
    [ ("task_response",
       "Bài viết phát triển tốt với quan điểm rõ ràng và các ý tưởng mở rộng, liên quan. Để đạt band cao hơn, cần có phân tích sâu sắc hơn.");
      ("coherence_cohesion",
       "Tổ chức logic với việc sử dụng hiệu quả các phương tiện liên kết. Có thể cải thiện bằng cách sử dụng referencing pronouns và lexical cohesion.");
      ("vocabulary",
       "Vốn từ phong phú và đa dạng. Tiếp tục mở rộng academic vocabulary và less common lexical items.");
      ("grammar",
       "Sử dụng đa dạng cấu trúc ngữ pháp với độ chính xác cao. Có thể thử thêm inversions và cleft sentences.") ].

Definition writing_feedback_4 : gmap string string :=
  list_to_map
    [ ("task_response",
       "Bài viết xuất sắc với phân tích sâu sắc và lập luận chặt chẽ. Ý tưởng được phát triển đầy đủ và có tính thuyết phục.");
      ("coherence_cohesion",
       "Tổ chức hoàn hảo với sự chuyển tiếp mượt mà giữa các ý. Sử dụng thành thạo các phương tiện liên kết.");
      ("vocabulary",
       "Vốn từ phong phú, chính xác và tự nhiên. Sử dụng thành thạo idioms, collocations và academic vocabulary.");
      ("grammar",
       "Sử dụng đa dạng và linh hoạt các cấu trúc ngữ pháp phức tạp với độ chính xác gần như hoàn hảo.") ].

Definition build_writing_feedback (band : Q) : FeedbackBundle :=
  if Qltb band 5.0 then writing_feedback_0
  else if Qltb band 5.5 then writing_feedback_1
  else if Qltb band 6.5 then writing_feedback_2
  else if Qltb band 7.5 then writing_feedback_3
  else writing_feedback_4.

Definition speaking_feedback_0 : gmap string string :=
  list_to_map
    [ ("fluency_coherence",
       "Tốc độ nói còn chậm với nhiều lần dừng. Hãy luyện nói liên tục hơn về các chủ đề quen thuộc.");
      ("vocabulary",
       "Vốn từ còn hạn chế. Cần học thêm các cụm diễn đạt hàng ngày và từ vựng theo chủ đề.");
      ("grammar",
       "Còn nhiều lỗi ngữ pháp cơ bản. Tập trung luyện các thì hiện tại, quá khứ và tương lai đơn.");
      ("pronunciation",
       "Phát âm có thể gây khó hiểu cho người nghe. Luyện tập phát âm từng âm và trọng âm từ.") ].

Definition speaking_feedback_1 : gmap string string :=
  list_to_map
    [ ("fluency_coherence",
       "Bạn có thể duy trì bài nói về chủ đề quen thuộc với một chút do dự. Sử dụng thêm các từ nối.");
      ("vocabulary",
       "Vốn từ tốt cho các chủ đề quen thuộc. Mở rộng thêm các cụm diễn đạt và collocations.");
      ("grammar",
       "Kiểm soát tốt các cấu trúc đơn giản. Luyện thêm câu phức và câu điều kiện.");
      ("pronunciation",
       "Phát âm khá rõ ràng. Cần cải thiện ngữ điệu và cách nối âm.") ].

Definition speaking_feedback_2 : gmap string string :=
  list_to_map
    [ ("fluency_coherence",
       "Bạn nói trôi chảy, chỉ thỉnh thoảng do dự. Sử dụng tuyệt vời các từ nối.");
      ("vocabulary",
       "Vốn từ phong phú với việc sử dụng tốt thành ngữ và collocations.");
      ("grammar",
       "Kiểm soát nhất quán các cấu trúc phức tạp, chỉ thỉnh thoảng có lỗi nhỏ.");
      ("pronunciation",
       "Phát âm rõ ràng, tự nhiên với việc kiểm soát tốt trọng âm và ngữ điệu.") ].

Definition build_speaking_feedback (cefr : string) (band : Q)
  : FeedbackBundle :=
  if Qltb band 5.0 then speaking_feedback_0
  else if Qltb band 6.5 then speaking_feedback_1
  else speaking_feedback_2.

(** *** HTTP responses *)

(** The [detail] of an error response. *)
Inductive detail : Type :=
  | Message (s : string)
  | ValidationMessage (reason : validation_reason)  (* [str(e)] *)
  | ExceptionMessage (e : exn)                      (* [str(e)] *)
  | FailedToProcess (e : exn).      (* "Failed to process audio: ..." *)

Inductive response (A : Type) : Type :=
  | Http200 (body : A)
  | HTTPException (status_code : nat) (d : detail)
  | RequestValidationError      (* 422: the request model rejects the body *)
  | ResponseValidationError.    (* the response model rejects the body *)
Arguments Http200 {A} body.
Arguments HTTPException {A} status_code d.
Arguments RequestValidationError {A}.
Arguments ResponseValidationError {A}.

Module WritingResponse.
Record t : Type := {
  overall_band : Q;
  confidence : Q;
  top_predictions : list Prediction;
  feedback : FeedbackBundle
}.
(** [ge=3.5, le=9] on the band and [ge=0, le=1] on the confidence. *)
Definition valid (r : t) : bool :=
  Qle_bool 3.5 (overall_band r) && Qle_bool (overall_band r) 9
  && Qle_bool 0 (confidence r) && Qle_bool (confidence r) 1.
End WritingResponse.

Module SpeakingTextResponse.
Record t : Type := {
  cefr_level : string;
  approx_ielts_band : Q;
  feedback : FeedbackBundle
}.
End SpeakingTextResponse.

Module TranscriptInfo.
Record t : Type := {
  language : pystr;
  duration_seconds : Q;
  word_count : nat;
  confidence : option Q
}.
End TranscriptInfo.

Module SpeakingAudioResponse.
Record t : Type := {
  transcript : pystr;
  transcript_info : TranscriptInfo.t;
  cefr_level : string;
  approx_ielts_band : Q;
  feedback : FeedbackBundle
}.
End SpeakingAudioResponse.

Module TranscribeResponse.
Record t : Type := {
  text : pystr;
  language : pystr;
  duration_seconds : Q;
  word_count : nat
}.
End TranscribeResponse.

(** *** Endpoints *)

(** [POST /api/writing/score]; [WritingRequest] asks for [min_length=50]. *)
Definition score_writing (w : World) (essay : pystr)
  : response WritingResponse.t :=
  if (length essay <? 50)%nat then RequestValidationError
  else
    match predict_writing_band w essay with
    | Raise e => HTTPException 500 (ExceptionMessage e)
    | Ok result =>
        let band := predicted_band result in
        let feedback := build_writing_feedback band in
        let body :=
          {| WritingResponse.overall_band := band;
             WritingResponse.confidence := predicted_confidence result;
             WritingResponse.top_predictions := predicted_top result;
             WritingResponse.feedback := feedback |} in
        if WritingResponse.valid body then Http200 body
        else ResponseValidationError
    end.

(** [POST /api/speaking/score-text]; [min_length=10] on the answer. *)
Definition score_speaking_text (w : World) (answer_text : pystr)
  : response SpeakingTextResponse.t :=
  if (length answer_text <? 10)%nat then RequestValidationError
  else
    match predict_cefr_and_band w answer_text with
    | Raise e => HTTPException 500 (ExceptionMessage e)
    | Ok (cefr, band) =>
        Http200 {| SpeakingTextResponse.cefr_level := cefr;
                   SpeakingTextResponse.approx_ielts_band := band;
                   SpeakingTextResponse.feedback :=
                     build_speaking_feedback cefr band |}
    end.

(** The calls an audio request makes to the services, in order. *)
Inductive call : Type :=
  | CallTranscribe (filename : pystr)
  | CallPredictCefr (text : pystr).

(** What a handler leaves behind: the files, the calls made, the reply. *)
Record outcome (A : Type) : Type := {
  files : SpeechService.filesystem;
  calls : list call;
  reply : response A
}.
Arguments files {A} o.
Arguments calls {A} o.
Arguments reply {A} o.

(** [audio.filename or "audio.wav"] *)
Definition filename_or_default (filename : option pystr) : pystr :=
  match filename with
  | Some (c :: s) => c :: s
  | _ => py "audio.wav"
  end.

(** [POST /api/speaking/score-audio] *)
Definition score_speaking_audio (w : World) (fs : SpeechService.filesystem)
    (audio_bytes : list Byte.byte) (filename : option pystr)
    (language : pystr) : outcome SpeakingAudioResponse.t :=
  if negb ENABLE_WHISPER then
    {| files := fs; calls := [];
       reply := HTTPException 503
         (Message "Speech-to-text is disabled. Set ENABLE_WHISPER=True to enable.") |}
  else if (SpeechService.size_of audio_bytes =? 0)%N then
    {| files := fs; calls := [];
       reply := HTTPException 400 (Message "Empty audio file") |}
  else
    let name := filename_or_default filename in
    let '(fs', r) :=
      SpeechService.transcribe_audio_bytes w fs audio_bytes name language
        Transcribe false in
    match r with
    | Raise (AudioValidationError reason) =>
        {| files := fs'; calls := [CallTranscribe name];
           reply := HTTPException 400 (ValidationMessage reason) |}
    | Raise e =>
        {| files := fs'; calls := [CallTranscribe name];
           reply := HTTPException 500 (FailedToProcess e) |}
    | Ok result =>
        let transcript := SpeechService.text result in
        if bool_decide (transcript = [])
           || (length (strip transcript) <? 10)%nat then
          {| files := fs'; calls := [CallTranscribe name];
             reply := HTTPException 400
               (Message "Could not extract meaningful text from audio. Please ensure clear speech.") |}
        else
          match predict_cefr_and_band w transcript with
          | Raise e =>
              {| files := fs';
                 calls := [CallTranscribe name; CallPredictCefr transcript];
                 reply := HTTPException 500 (FailedToProcess e) |}
          | Ok (cefr, band) =>
              let feedback := build_speaking_feedback cefr band in
              {| files := fs';
                 calls := [CallTranscribe name; CallPredictCefr transcript];
                 reply := Http200
                   {| SpeakingAudioResponse.transcript := transcript;
                      SpeakingAudioResponse.transcript_info :=
                        {| TranscriptInfo.language := SpeechService.language result;
                           TranscriptInfo.duration_seconds := SpeechService.duration result;
                           TranscriptInfo.word_count := word_count transcript;
                           TranscriptInfo.confidence := SpeechService.confidence result |};
                      SpeakingAudioResponse.cefr_level := cefr;
                      SpeakingAudioResponse.approx_ielts_band := band;
                      SpeakingAudioResponse.feedback := feedback |} |}
          end
    end.

(** [POST /api/transcribe] *)
Definition transcribe_audio (w : World) (fs : SpeechService.filesystem)
    (audio_bytes : list Byte.byte) (filename : option pystr)
    (language : pystr) : outcome TranscribeResponse.t :=
  if negb ENABLE_WHISPER then
    {| files := fs; calls := [];
       reply := HTTPException 503 (Message "Speech-to-text is disabled") |}
  else
    let name := filename_or_default filename in
    let '(fs', r) :=
      SpeechService.transcribe_audio_bytes w fs audio_bytes name language
        Transcribe false in
    match r with
    | Raise (AudioValidationError reason) =>
        {| files := fs'; calls := [CallTranscribe name];
           reply := HTTPException 400 (ValidationMessage reason) |}
    | Raise e =>
        {| files := fs'; calls := [CallTranscribe name];
           reply := HTTPException 500 (ExceptionMessage e) |}
    | Ok result =>
        {| files := fs'; calls := [CallTranscribe name];
           reply := Http200
             {| TranscribeResponse.text := SpeechService.text result;
                TranscribeResponse.language := SpeechService.language result;
                TranscribeResponse.duration_seconds := SpeechService.duration result;
                TranscribeResponse.word_count :=
                  word_count (SpeechService.text result) |} |}
    end.

(** *** The model manager and start-up *)

(** The outcome of an [import] statement: the module is imported, or
    the statement raises an [ImportError], which [get_whisper_service]
    catches, or another exception, which it does not. *)
Inductive import_outcome : Type :=
  | Imported
  | RaisesImportError
  | RaisesOther (e : exn).

(** What the machine answers at a given moment: whether the pretrained
    tokenizers and models load, whether the speaking model directory
    exists, how the import of [services/writing_service.py] ends (the
    module loads its own tokenizer, model and band mapping while it is
    imported, and re-raises what that raises), whether [import whisper]
    at the head of [services/speech_service.py] succeeds, and for which
    sizes a Whisper model loads. *)
Record Host : Type := {
  writing_tokenizer_loads : bool;
  writing_model_loads : bool;
  speaking_dir_exists : bool;
  speaking_tokenizer_loads : bool;
  speaking_model_loads : bool;
  writing_service_import : import_outcome;
  whisper_importable : bool;
  whisper_loads : string -> bool
}.

(** The modules of the repository already imported ([sys.modules]): the
    package [services] and its module [services.speech_service].
    [app.py] imports neither when it is loaded. *)
Record Modules : Type := {
  services : bool;
  services_speech_service : bool
}.

Definition no_modules : Modules :=
  {| services := false; services_speech_service := false |}.

(** Importing the package runs [services/__init__.py]: it imports
    [writing_service] outside any [try], so what that import raises
    leaves the package unimported and propagates; then
    [speaking_service], which loads nothing while imported; then
    [speech_service], whose [ImportError] it catches. *)
Definition import_services (h : Host) (modules : Modules)
  : Modules * import_outcome :=
  if services modules then (modules, Imported)
  else
    match writing_service_import h with
    | Imported =>
        ({| services := true;
            services_speech_service :=
              services_speech_service modules || whisper_importable h |},
         Imported)
    | raised => (modules, raised)
    end.

(** [from services.speech_service import ...]: the package first, then
    the module unless it is imported already. *)
Definition import_speech_service (h : Host) (modules : Modules)
  : Modules * import_outcome :=
  let '(modules1, outcome) := import_services h modules in
  match outcome with
  | Imported =>
      if services_speech_service modules1 then (modules1, Imported)
      else if whisper_importable h then
        ({| services := services modules1;
            services_speech_service := true |}, Imported)
      else (modules1, RaisesImportError)
  | raised => (modules1, raised)
  end.

Module ModelManager.

(** The class attributes: for each handle whether it is set, and the
    cached answer of the directory check. *)
Record t : Type := {
  _writing_model : bool;
  _writing_tokenizer : bool;
  _speaking_model : bool;
  _speaking_tokenizer : bool;
  _whisper_service : bool;
  _speaking_available : option bool
}.

Definition initial : t :=
  {| _writing_model := false; _writing_tokenizer := false;
     _speaking_model := false; _speaking_tokenizer := false;
     _whisper_service := false; _speaking_available := None |}.

(** A [from_pretrained] that fails raises; the tokenizer is assigned
    before the model is loaded. *)
Definition get_writing_model (h : Host) (cls : t) : t * result unit :=
  if negb (_writing_model cls) then
    if negb (writing_tokenizer_loads h) then (cls, Raise OSError)
    else
      let cls1 :=
        {| _writing_model := _writing_model cls;
           _writing_tokenizer := true;
           _speaking_model := _speaking_model cls;
           _speaking_tokenizer := _speaking_tokenizer cls;
           _whisper_service := _whisper_service cls;
           _speaking_available := _speaking_available cls |} in
      if negb (writing_model_loads h) then (cls1, Raise OSError)
      else
        ({| _writing_model := true;
            _writing_tokenizer := true;
            _speaking_model := _speaking_model cls;
            _speaking_tokenizer := _speaking_tokenizer cls;
            _whisper_service := _whisper_service cls;
            _speaking_available := _speaking_available cls |}, Ok tt)
  else (cls, Ok tt).

(** The directory check shared by [get_speaking_model] and
    [is_speaking_available]: made only while the cache is empty. *)
Definition check_speaking_available (h : Host) (cls : t) : t :=
  match _speaking_available cls with
  | None =>
      {| _writing_model := _writing_model cls;
         _writing_tokenizer := _writing_tokenizer cls;
         _speaking_model := _speaking_model cls;
         _speaking_tokenizer := _speaking_tokenizer cls;
         _whisper_service := _whisper_service cls;
         _speaking_available := Some (speaking_dir_exists h) |}
  | Some _ => cls
  end.

Definition get_speaking_model (h : Host) (cls : t) : t * result unit :=
  let cls0 := check_speaking_available h cls in
  if negb (default false (_speaking_available cls0)) then
    (cls0, Raise FileNotFoundError)
  else if negb (_speaking_model cls0) then
    if negb (speaking_tokenizer_loads h) then (cls0, Raise OSError)
    else
      let cls1 :=
        {| _writing_model := _writing_model cls0;
           _writing_tokenizer := _writing_tokenizer cls0;
           _speaking_model := _speaking_model cls0;
           _speaking_tokenizer := true;
           _whisper_service := _whisper_service cls0;
           _speaking_available := _speaking_available cls0 |} in
      if negb (speaking_model_loads h) then (cls1, Raise OSError)
      else
        ({| _writing_model := _writing_model cls0;
            _writing_tokenizer := _writing_tokenizer cls0;
            _speaking_model := true;
            _speaking_tokenizer := true;
            _whisper_service := _whisper_service cls0;
            _speaking_available := _speaking_available cls0 |}, Ok tt)
  else (cls0, Ok tt).

Definition is_speaking_available (h : Host) (cls : t) : t * bool :=
  let cls0 := check_speaking_available h cls in
  (cls0, default false (_speaking_available cls0)).

(** [get_whisper_service], on the imported modules, the manager and
    the Whisper manager of the speech service: an [ImportError] of the
    import is caught; another exception of the import, and a model
    that fails to load, are not.  The value returned is whether a
    service is set. *)
Definition get_whisper_service (h : Host) (modules : Modules) (cls : t)
    (whisper : SpeechService.WhisperModelManager.t)
  : Modules * t * SpeechService.WhisperModelManager.t * result bool :=
  if negb (_whisper_service cls) && ENABLE_WHISPER then
    let '(modules1, outcome) := import_speech_service h modules in
    match outcome with
    | RaisesImportError => (modules1, cls, whisper, Ok false)
    | RaisesOther e => (modules1, cls, whisper, Raise e)
    | Imported =>
        let '(whisper', _, r) :=
          SpeechService.preload_model (whisper_loads h) whisper in
        match r with
        | Raise e => (modules1, cls, whisper', Raise e)
        | Ok _ =>
            (modules1,
             {| _writing_model := _writing_model cls;
                _writing_tokenizer := _writing_tokenizer cls;
                _speaking_model := _speaking_model cls;
                _speaking_tokenizer := _speaking_tokenizer cls;
                _whisper_service := true;
                _speaking_available := _speaking_available cls |},
             whisper', Ok true)
        end
    end
  else (modules, cls, whisper, Ok (_whisper_service cls)).

(** A use of the speaking side of the manager on the machine as it is
    at that moment, and the manager after a sequence of uses. *)
Inductive use : Type :=
  | IsSpeakingAvailable (h : Host)
  | GetSpeakingModel (h : Host).

Definition host_of (u : use) : Host :=
  match u with IsSpeakingAvailable h | GetSpeakingModel h => h end.

Definition after_use (cls : t) (u : use) : t :=
  match u with
  | IsSpeakingAvailable h => (is_speaking_available h cls).1
  | GetSpeakingModel h => (get_speaking_model h cls).1
  end.

Definition after_uses (uses : list use) (cls : t) : t :=
  fold_left after_use uses cls.

End ModelManager.

(** The start-up half of [lifespan], up to its [yield]: the imported
    modules and the managers when the server starts serving, or the
    exception that aborts the start. *)
Definition lifespan (h : Host) (modules : Modules) (cls : ModelManager.t)
    (whisper : SpeechService.WhisperModelManager.t)
  : result (Modules * ModelManager.t * SpeechService.WhisperModelManager.t) :=
  let '(cls1, r1) := ModelManager.get_writing_model h cls in
  _ ← r1;
  let '(cls2, available) := ModelManager.is_speaking_available h cls1 in
  '(cls3, r3) ←
    (if available then
       let '(cls3, r) := ModelManager.get_speaking_model h cls2 in
       _ ← r; Ok (cls3, tt)
     else Ok (cls2, tt));
  if ENABLE_WHISPER then
    let '(modules4, cls4, whisper4, r4) :=
      ModelManager.get_whisper_service h modules cls3 whisper in
    _ ← r4; Ok (modules4, cls4, whisper4)
  else Ok (modules, cls3, whisper).

End App.

Close Scope string_scope.

(** ** The specification's own words

    Definitions that follow the specification rather than the source; the
    theorems below compare them with the code. *)

Module Spec.

(** The index of the first ascending upper-bound threshold the score is
    strictly less than, or the number of thresholds if there is none. *)
Fixpoint bucket_index (thresholds : list Q) (score : Q) : nat :=
  match thresholds with
  | [] => 0
  | t :: rest => if Qltb score t then 0 else S (bucket_index rest score)
  end.

Inductive domain : Type := writing | speaking.

Definition thresholds (d : domain) : list Q :=
  match d with
  | writing => [5.0; 5.5; 6.5; 7.5]
  | speaking => [5.0; 6.5]
  end.

(** The bundles of [app.py], lowest bucket first. *)
Definition bundles (d : domain) : list FeedbackBundle :=
  match d with
  | writing =>
      [App.writing_feedback_0; App.writing_feedback_1;
       App.writing_feedback_2; App.writing_feedback_3;
       App.writing_feedback_4]
  | speaking =>
      [App.speaking_feedback_0; App.speaking_feedback_1;
       App.speaking_feedback_2]
  end.

Definition feedbackFor (d : domain) (score : Q) : FeedbackBundle :=
  nth (bucket_index (thresholds d) score) (bundles d) ∅.

(** The thresholds and bundles of [services/writing_service.py]. *)
Definition service_thresholds : list Q := [5.0; 6.0; 7.0; 8.0].
Definition service_bundles : list FeedbackBundle :=
  [WritingService.writing_feedback_0; WritingService.writing_feedback_1;
   WritingService.writing_feedback_2; WritingService.writing_feedback_3;
   WritingService.writing_feedback_4].

(** The four criteria of a writing bundle. *)
Definition writing_criteria : list string :=
  ["task_response"; "coherence_cohesion"; "vocabulary"; "grammar"]%string.

(** Class indices by descending probability, ties broken by the lower
    class index: a stable insertion sort of [0, 1, ...] that puts [i]
    before every later index whose probability is not larger. *)
Fixpoint insert_desc (key : nat -> Q) (i : nat) (sorted : list nat)
  : list nat :=
  match sorted with
  | [] => [i]
  | j :: rest =>
      if Qle_bool (key j) (key i) then i :: j :: rest
      else j :: insert_desc key i rest
  end.

Definition ranking (probs : list Q) : list nat :=
  foldr (insert_desc (fun i => nth i probs 0)) [] (seq 0 (length probs)).

(** The three top predictions the specification asks for. *)
Definition top3 (probs : list Q) : list (option Q * Q) :=
  map (fun idx => (App.WRITING_IDX_TO_BAND !! idx, nth idx probs 0))
      (take 3 (ranking probs)).

(** The entry of [top_predictions] for class [idx]. *)
Definition entry (probs : list Q) (idx : nat) : App.Prediction :=
  {| App.band := nth idx App.WRITING_BAND_CLASSES 0;
     App.probability := nth idx probs 0 |}.

(** The arithmetic mean of a non-empty list. *)
Definition arithmetic_mean (xs : list Q) : Q :=
  foldr Qplus 0 xs / inject_Z (Z.of_nat (length xs)).

(** The duration of a payload: the number of samples of its decoding at
    16 kHz, divided by 16000; none when it cannot be decoded. *)
Definition decoded_duration (w : World) (content : list Byte.byte)
  : option Q :=
  (fun samples => inject_Z (Z.of_N samples) / 16000) <$> load_audio w content.

Definition MiB : N := (1024 * 1024)%N.

(** The order of the validation checks as the specification lists them:
    empty, extension, size, duration, on the extension as the file name
    has it.  The answer is the reason of the first check that fails. *)
Definition claimed_verdict (extension : pystr) (size : N)
    (decoded : option Q) : option validation_reason :=
  if (size =? 0)%N then Some EmptyFile
  else if negb (bool_decide (extension ∈ SpeechService.SUPPORTED_AUDIO_FORMATS))
  then Some (UnsupportedUpload extension)
  else if (25 * MiB <? size)%N then Some (TooLarge size)
  else match decoded with
       | Some d => if Qltb 300 d then Some (TooLong d) else None
       | None => None
       end.

(** The same checks with the extension first, on the suffix that stands
    for the file name ([.wav] when it has no extension). *)
Definition verdict (suffix : pystr) (size : N) (decoded : option Q)
  : option validation_reason :=
  if negb (bool_decide (suffix ∈ SpeechService.SUPPORTED_AUDIO_FORMATS))
  then Some (UnsupportedUpload suffix)
  else if (size =? 0)%N then Some EmptyFile
  else if (25 * MiB <? size)%N then Some (TooLarge size)
  else match decoded with
       | Some d => if Qltb 300 d then Some (TooLong d) else None
       | None => None
       end.

(** The level, band and feedback a speaking reply can carry: the band of
    [CEFR_TO_IELTS] for each level, and the bundle of that band. *)
Definition speaking_replies : list (string * Q * FeedbackBundle) :=
  [ ("A1"%string, 2.5, App.speaking_feedback_0);
    ("A2"%string, 3.5, App.speaking_feedback_0);
    ("B1"%string, 5.0, App.speaking_feedback_1);
    ("B2"%string, 6.5, App.speaking_feedback_2);
    ("C1"%string, 7.5, App.speaking_feedback_2);
    ("C2"%string, 8.5, App.speaking_feedback_2) ].

End Spec.

(** The characters [tempfile] draws the random part of a name from. *)
Definition is_tmp_char (c : N) : bool :=
  ((97 <=? c) && (c <=? 122) || (48 <=? c) && (c <=? 57) || (c =? 95))%N.

(** ** Sample inputs *)

Module Examples.

(** An essay of fifty characters. *)
Definition essay : pystr := repeat 97%N 50.

(** A class distribution whose two largest entries are equal. *)
Definition tie_probs : list Q := [0.5; 0.5; 0; 0; 0; 0; 0; 0; 0; 0; 0; 0].

(** One second of decodable audio that Whisper hears as a short sentence
    in two segments. *)
Definition heard : WhisperOutput :=
  {| out_text := Some (py " hello world, this is a test ");
     out_language := Some (py "en");
     out_segments := Some
       [ {| seg_start := Some 0; seg_end := Some 0.5;
            seg_text := Some (py " hello world,");
            no_speech_prob := Some 0.25 |};
         {| seg_start := Some 0.5; seg_end := Some 1;
            seg_text := Some (py " this is a test");
            no_speech_prob := Some 0.5 |} ] |}.

Definition world : World :=
  {| writing_probs := fun _ => tie_probs;
     speaking_model_exists := true;
     speaking_logits := fun _ => [0; 0.5; 2; 1.5; 0; 0];
     tmp_rand := py "k3x9a_q2";
     tmp_write_ok := true;
     tmp_write_failure := FailsInWrite 0;
     unlink_ok := true;
     load_audio := fun _ => Some 16000%N;
     whisper_model_ok := true;
     whisper_transcribe := fun _ _ _ => Some heard |}.

(** The same world, except that the operating system refuses to unlink. *)
Definition world_unlink_fails : World :=
  {| writing_probs := writing_probs world;
     speaking_model_exists := speaking_model_exists world;
     speaking_logits := speaking_logits world;
     tmp_rand := tmp_rand world;
     tmp_write_ok := true;
     tmp_write_failure := FailsInWrite 0;
     unlink_ok := false;
     load_audio := load_audio world;
     whisper_model_ok := whisper_model_ok world;
     whisper_transcribe := whisper_transcribe world |}.

(** The same world, except that the audio cannot be decoded. *)
Definition world_undecodable : World :=
  {| writing_probs := writing_probs world;
     speaking_model_exists := speaking_model_exists world;
     speaking_logits := speaking_logits world;
     tmp_rand := tmp_rand world;
     tmp_write_ok := true;
     tmp_write_failure := FailsInWrite 0;
     unlink_ok := true;
     load_audio := fun _ => None;
     whisper_model_ok := whisper_model_ok world;
     whisper_transcribe := whisper_transcribe world |}.

(** The same world, except that Whisper makes out a single word. *)
Definition world_mumble : World :=
  {| writing_probs := writing_probs world;
     speaking_model_exists := speaking_model_exists world;
     speaking_logits := speaking_logits world;
     tmp_rand := tmp_rand world;
     tmp_write_ok := true;
     tmp_write_failure := FailsInWrite 0;
     unlink_ok := true;
     load_audio := load_audio world;
     whisper_model_ok := whisper_model_ok world;
     whisper_transcribe := fun _ _ _ =>
       Some {| out_text := Some (py "  uh huh  ");
               out_language := None; out_segments := None |} |}.

(** A one-byte payload. *)
Definition payload : list Byte.byte := [Byte.x52].

(** A file system holding that payload as an audio file. *)
Definition audio_path : pystr := py "/srv/answers/part2.wav".
Definition files : gmap pystr (list Byte.byte) := {[ audio_path := payload ]}.

(** A payload larger than the buffer of a file object. *)
Definition large_payload : list Byte.byte := repeat Byte.x52 (100 * 100).

(** The same world as [world], except that the payload cannot be
    written to the temporary file: [write] raises, no byte having reached
    the file. *)
Definition world_write_fails : World :=
  {| writing_probs := writing_probs world;
     speaking_model_exists := speaking_model_exists world;
     speaking_logits := speaking_logits world;
     tmp_rand := tmp_rand world;
     tmp_write_ok := false;
     tmp_write_failure := FailsInWrite 0;
     unlink_ok := true;
     load_audio := load_audio world;
     whisper_model_ok := whisper_model_ok world;
     whisper_transcribe := whisper_transcribe world |}.

(** The same world as [world], except that the payload cannot be
    written to the temporary file: the error is raised when the file is
    closed. *)
Definition world_close_fails : World :=
  {| writing_probs := writing_probs world;
     speaking_model_exists := speaking_model_exists world;
     speaking_logits := speaking_logits world;
     tmp_rand := tmp_rand world;
     tmp_write_ok := false;
     tmp_write_failure := FailsOnClose 0;
     unlink_ok := true;
     load_audio := load_audio world;
     whisper_model_ok := whisper_model_ok world;
     whisper_transcribe := whisper_transcribe world |}.

(** A world whose writing model has two classes only. *)
Definition world_two_classes : World :=
  {| writing_probs := fun _ => [0.25; 0.75];
     speaking_model_exists := speaking_model_exists world;
     speaking_logits := speaking_logits world;
     tmp_rand := tmp_rand world;
     tmp_write_ok := true;
     tmp_write_failure := FailsInWrite 0;
     unlink_ok := true;
     load_audio := load_audio world;
     whisper_model_ok := whisper_model_ok world;
     whisper_transcribe := whisper_transcribe world |}.

(** A world whose speaking model has five classes only. *)
Definition world_five_logits : World :=
  {| writing_probs := writing_probs world;
     speaking_model_exists := true;
     speaking_logits := fun _ => [0; 0.5; 2; 1.5; 0];
     tmp_rand := tmp_rand world;
     tmp_write_ok := true;
     tmp_write_failure := FailsInWrite 0;
     unlink_ok := true;
     load_audio := load_audio world;
     whisper_model_ok := whisper_model_ok world;
     whisper_transcribe := whisper_transcribe world |}.

(** A positive, non-decreasing function to stand for [np.exp]. *)
Definition sample_exp (x : Q) : Q := if Qltb x 0 then 1 else 1 + x.

End Examples.

(** * Properties *)

(** ** Order on floats *)

Lemma Qltb_lt (a b : Q) : Qltb a b = true <-> a < b.
Proof.
  unfold Qltb. rewrite negb_true_iff, <- not_true_iff_false, Qle_bool_iff.
  split; [apply Qnot_le_lt | apply Qlt_not_le].
Qed.

Lemma Qltb_ge (a b : Q) : Qltb a b = false <-> b <= a.
Proof.
  unfold Qltb. rewrite negb_false_iff. apply Qle_bool_iff.
Qed.

(** Case analysis on a comparison, leaving the order fact in the context. *)
Ltac case_Qltb a b :=
  let H := fresh "Hcmp" in
  destruct (Qltb a b) eqn:H;
  [apply Qltb_lt in H | apply Qltb_ge in H].

(** ** Feedback tables *)

Lemma writing_feedback_bucket (band : Q) :
  App.build_writing_feedback band = Spec.feedbackFor Spec.writing band.
Proof.
  unfold App.build_writing_feedback, Spec.feedbackFor. simpl.
  repeat (match goal with |- context [Qltb ?a ?b] => destruct (Qltb a b) end;
          try reflexivity).
Qed.

Lemma speaking_feedback_bucket (cefr : string) (band : Q) :
  App.build_speaking_feedback cefr band = Spec.feedbackFor Spec.speaking band.
Proof.
  unfold App.build_speaking_feedback, Spec.feedbackFor. simpl.
  repeat (match goal with |- context [Qltb ?a ?b] => destruct (Qltb a b) end;
          try reflexivity).
Qed.

Lemma service_writing_feedback_bucket (band : Q) :
  WritingService.build_writing_feedback band
  = nth (Spec.bucket_index Spec.service_thresholds band) Spec.service_bundles ∅.
Proof.
  unfold WritingService.build_writing_feedback. simpl.
  repeat (match goal with |- context [Qltb ?a ?b] => destruct (Qltb a b) end;
          try reflexivity).
Qed.

(** The two copies of the speaking table hold the same bundles. *)
Lemma speaking_tables_equal :
  [SpeakingService.speaking_feedback_0; SpeakingService.speaking_feedback_1;
   SpeakingService.speaking_feedback_2]
  = Spec.bundles Spec.speaking.
Proof. reflexivity. Qed.

Lemma service_speaking_feedback_bucket (cefr : string) (band : Q) :
  SpeakingService.build_speaking_feedback cefr band
  = Spec.feedbackFor Spec.speaking band.
Proof.
  unfold SpeakingService.build_speaking_feedback, Spec.feedbackFor.
  rewrite <- speaking_tables_equal. simpl.
  repeat (match goal with |- context [Qltb ?a ?b] => destruct (Qltb a b) end;
          try reflexivity).
Qed.

(** Bundles are told apart by the text of one criterion. *)
Lemma NoDup_by_key (k : string) (l : list FeedbackBundle) :
  NoDup (map (fun m : FeedbackBundle => m !! k) l) -> NoDup l.
Proof. apply (NoDup_fmap_1 (fun m : FeedbackBundle => m !! k)). Qed.

Lemma writing_bundles_distinct : NoDup (Spec.bundles Spec.writing).
Proof.
  apply (NoDup_by_key "task_response").
  apply (bool_decide_unpack _). vm_compute. exact I.
Qed.

Lemma speaking_bundles_distinct : NoDup (Spec.bundles Spec.speaking).
Proof.
  apply (NoDup_by_key "fluency_coherence").
  apply (bool_decide_unpack _). vm_compute. exact I.
Qed.

(** C2. [feedbackFor] is a function of the score alone: the code returns the
    bundle of the first threshold the score is strictly below, else the last
    bundle, with thresholds 5.0, 5.5, 6.5, 7.5 for writing and 5.0, 6.5 for
    speaking; the five (three) bundles are pairwise distinct, and the sample
    scores 4.9, 5.4, 6.4, 7.4, 8.0 fall in buckets 0, 1, 2, 3, 4 (4.9, 6.4,
    8.0 in buckets 0, 1, 2 for speaking). *)
Theorem feedback_first_threshold_below (score : Q) (cefr : string) :
  App.build_writing_feedback score = Spec.feedbackFor Spec.writing score
  /\ App.build_speaking_feedback cefr score
     = Spec.feedbackFor Spec.speaking score
  /\ NoDup (Spec.bundles Spec.writing)
  /\ NoDup (Spec.bundles Spec.speaking)
  /\ map (Spec.bucket_index (Spec.thresholds Spec.writing))
         [4.9; 5.4; 6.4; 7.4; 8.0] = [0; 1; 2; 3; 4]%nat
  /\ map (Spec.bucket_index (Spec.thresholds Spec.speaking))
         [4.9; 6.4; 8.0] = [0; 1; 2]%nat.
Proof.
  split; [apply writing_feedback_bucket |].
  split; [apply speaking_feedback_bucket |].
  split; [apply writing_bundles_distinct |].
  split; [apply speaking_bundles_distinct |].
  split; reflexivity.
Qed.

(** C10. [build_speaking_feedback] ignores its CEFR label, in [app.py] and in
    [speaking_service.py] alike: two calls at the same band return the same
    bundle whatever the labels, and that bundle is the one of the band's
    interval among [band < 5.0], [5.0 <= band < 6.5] and [6.5 <= band]. *)
Theorem speaking_feedback_ignores_cefr (band : Q) (cefr1 cefr2 : string) :
  App.build_speaking_feedback cefr1 band
  = App.build_speaking_feedback cefr2 band
  /\ SpeakingService.build_speaking_feedback cefr1 band
     = SpeakingService.build_speaking_feedback cefr2 band
  /\ App.build_speaking_feedback cefr1 band
     = nth (Spec.bucket_index [5.0; 6.5] band) (Spec.bundles Spec.speaking) ∅
  /\ SpeakingService.build_speaking_feedback cefr1 band
     = nth (Spec.bucket_index [5.0; 6.5] band) (Spec.bundles Spec.speaking) ∅.
Proof.
  split; [transitivity (Spec.feedbackFor Spec.speaking band);
          [| symmetry]; apply speaking_feedback_bucket |].
  split; [transitivity (Spec.feedbackFor Spec.speaking band);
          [| symmetry]; apply service_speaking_feedback_bucket |].
  split; [apply speaking_feedback_bucket
         | apply service_speaking_feedback_bucket].
Qed.

(** The bundles of [app.py] have no [level] entry; those of
    [writing_service.py] always have one. *)
Lemma app_writing_feedback_no_level (band : Q) :
  App.build_writing_feedback band !! "level"%string = None.
Proof.
  unfold App.build_writing_feedback.
  repeat (match goal with |- context [Qltb ?a ?b] => destruct (Qltb a b) end;
          try reflexivity).
Qed.

Lemma service_writing_feedback_level (band : Q) :
  is_Some (WritingService.build_writing_feedback band !! "level"%string).
Proof.
  unfold WritingService.build_writing_feedback.
  repeat (match goal with |- context [Qltb ?a ?b] => destruct (Qltb a b) end;
          try (eexists; reflexivity)).
Qed.

Lemma writing_feedback_never_equal (band : Q) :
  App.build_writing_feedback band <> WritingService.build_writing_feedback band.
Proof.
  intros Heq.
  destruct (service_writing_feedback_level band) as [v Hv].
  rewrite <- Heq, app_writing_feedback_no_level in Hv. discriminate.
Qed.

Lemma writing_buckets_agree_iff (band : Q) :
  Spec.bucket_index (Spec.thresholds Spec.writing) band
  = Spec.bucket_index Spec.service_thresholds band
  <-> band < 5.5 \/ (6.0 <= band /\ band < 6.5)
      \/ (7.0 <= band /\ band < 7.5) \/ 8.0 <= band.
Proof.
  unfold Spec.service_thresholds. simpl.
  case_Qltb band 5.0; case_Qltb band 5.5; case_Qltb band 6.5;
    case_Qltb band 7.5; case_Qltb band 6.0; case_Qltb band 7.0;
    case_Qltb band 8.0;
    (split; [intros Hb; try discriminate Hb | intros Hb; try reflexivity]);
    try (exfalso; lra); try lra.
Qed.

(** The keys of the writing bundles, in each of the two files. *)
Lemma app_writing_bundle_keys (i : nat) :
  (i < 5)%nat ->
  dom (nth i (Spec.bundles Spec.writing) ∅)
  = list_to_set Spec.writing_criteria.
Proof.
  intros Hi.
  do 5 (destruct i as [| i];
        [cbn [nth Spec.bundles];
         lazymatch goal with |- dom ?bundle = _ => unfold bundle end;
         rewrite dom_list_to_map_L; reflexivity |]).
  lia.
Qed.

Lemma service_writing_bundle_keys (j : nat) :
  (j < 5)%nat ->
  dom (nth j Spec.service_bundles ∅)
  = list_to_set (Spec.writing_criteria ++ ["level"; "suggestion"]%string).
Proof.
  intros Hj. unfold Spec.service_bundles.
  do 5 (destruct j as [| j];
        [cbn [nth];
         lazymatch goal with |- dom ?bundle = _ => unfold bundle end;
         rewrite dom_list_to_map_L; reflexivity |]).
  lia.
Qed.

Lemma bucket_index_bound (thresholds : list Q) (score : Q) :
  (Spec.bucket_index thresholds score <= length thresholds)%nat.
Proof.
  induction thresholds as [| t rest IH]; cbn [Spec.bucket_index length];
    [lia |].
  destruct (Qltb score t); lia.
Qed.

(** The text of a criterion in the [i]-th bundle of [app.py] is its text in
    the [j]-th bundle of [writing_service.py] for the two lowest bundles
    only. *)
Lemma writing_texts_compared :
  forallb (fun i =>
    forallb (fun j =>
      forallb (fun k =>
        eqb (bool_decide (nth i (Spec.bundles Spec.writing) ∅ !! k
                          = nth j Spec.service_bundles ∅ !! k))
            ((i =? 0)%nat && (j =? 0)%nat))
        Spec.writing_criteria)
      (seq 0 5))
    (seq 0 5) = true.
Proof. vm_compute. reflexivity. Qed.

Lemma writing_text_shared (i j : nat) (k : string) :
  (i < 5)%nat -> (j < 5)%nat -> k ∈ Spec.writing_criteria ->
  nth i (Spec.bundles Spec.writing) ∅ !! k
  = nth j Spec.service_bundles ∅ !! k
  <-> i = 0%nat /\ j = 0%nat.
Proof.
  intros Hi Hj Hk.
  pose proof writing_texts_compared as H.
  rewrite forallb_forall in H.
  specialize (H i (proj2 (in_seq 5 0 i) (conj (Nat.le_0_l i) Hi))).
  rewrite forallb_forall in H.
  specialize (H j (proj2 (in_seq 5 0 j) (conj (Nat.le_0_l j) Hj))).
  rewrite forallb_forall in H.
  specialize (H k (proj1 (list_elem_of_In _ _) Hk)).
  apply eqb_prop in H. revert H. case_bool_decide as Hsame; intros H.
  - symmetry in H. apply andb_true_iff in H.
    rewrite !Nat.eqb_eq in H. split; [intros _; exact H | intros _; exact Hsame].
  - split; [intros Heq; contradiction |].
    intros [-> ->]. discriminate H.
Qed.

Lemma bucket_index_zero (t : Q) (rest : list Q) (score : Q) :
  Spec.bucket_index (t :: rest) score = 0%nat <-> score < t.
Proof.
  cbn [Spec.bucket_index]. case_Qltb score t.
  - split; [intros _; assumption | reflexivity].
  - split; [discriminate | intros Hlt; exfalso; lra].
Qed.

(** A criterion has the same text in a bundle of [app.py] and in a bundle of
    [writing_service.py] exactly when both are the lowest bundle. *)
Lemma writing_text_shared_iff (band band' : Q) (k : string) :
  k ∈ Spec.writing_criteria ->
  App.build_writing_feedback band !! k
  = WritingService.build_writing_feedback band' !! k
  <-> band < 5.0 /\ band' < 5.0.
Proof.
  intros Hk.
  rewrite writing_feedback_bucket, service_writing_feedback_bucket.
  unfold Spec.feedbackFor.
  pose proof (bucket_index_bound (Spec.thresholds Spec.writing) band) as Hi.
  pose proof (bucket_index_bound Spec.service_thresholds band') as Hj.
  change (length (Spec.thresholds Spec.writing)) with 4%nat in Hi.
  change (length Spec.service_thresholds) with 4%nat in Hj.
  rewrite writing_text_shared by (lia || exact Hk).
  unfold Spec.service_thresholds. cbn [Spec.thresholds].
  rewrite !bucket_index_zero. reflexivity.
Qed.

(** C3, as the specification has it, fails at band 5.5: [app.py] answers with
    its third bundle, [writing_service.py] with its second, and the two
    dictionaries differ. *)
Lemma writing_tables_differ_at_5_5 :
  Spec.bucket_index (Spec.thresholds Spec.writing) 5.5 = 2%nat
  /\ Spec.bucket_index Spec.service_thresholds 5.5 = 1%nat
  /\ App.build_writing_feedback 5.5 <> WritingService.build_writing_feedback 5.5.
Proof.
  split; [reflexivity |]. split; [reflexivity |].
  apply writing_feedback_never_equal.
Qed.

(** C3, amended.  The two writing tables are not copies.  [app.py] cuts at
    5.0, 5.5, 6.5, 7.5 and [writing_service.py] at 5.0, 6.0, 7.0, 8.0, so the
    two pick the same bucket exactly for [band < 5.5], [6.0 <= band < 6.5],
    [7.0 <= band < 7.5] and [8.0 <= band].  The returned dictionaries are
    never equal: those of [app.py] have the four criteria as their keys,
    those of [writing_service.py] the four criteria, [level] and
    [suggestion].  The text of a criterion is the same in a bundle of
    [app.py] and a bundle of [writing_service.py] exactly when both are the
    lowest bundle, the one for bands below 5.0: in every other bundle, at
    the same position or not, each of the four texts differs. *)
Theorem writing_tables_agreement (band : Q) :
  App.build_writing_feedback band
  = nth (Spec.bucket_index (Spec.thresholds Spec.writing) band)
        (Spec.bundles Spec.writing) ∅
  /\ WritingService.build_writing_feedback band
     = nth (Spec.bucket_index Spec.service_thresholds band)
           Spec.service_bundles ∅
  /\ (Spec.bucket_index (Spec.thresholds Spec.writing) band
      = Spec.bucket_index Spec.service_thresholds band
      <-> band < 5.5 \/ (6.0 <= band /\ band < 6.5)
          \/ (7.0 <= band /\ band < 7.5) \/ 8.0 <= band)
  /\ App.build_writing_feedback band
     <> WritingService.build_writing_feedback band
  /\ dom (App.build_writing_feedback band)
     = list_to_set Spec.writing_criteria
  /\ dom (WritingService.build_writing_feedback band)
     = list_to_set (Spec.writing_criteria ++ ["level"; "suggestion"]%string)
  /\ Forall (fun k =>
               forall band' : Q,
                 App.build_writing_feedback band !! k
                 = WritingService.build_writing_feedback band' !! k
                 <-> band < 5.0 /\ band' < 5.0)
            Spec.writing_criteria.
Proof.
  split; [apply writing_feedback_bucket |].
  split; [apply service_writing_feedback_bucket |].
  split; [apply writing_buckets_agree_iff |].
  split; [apply writing_feedback_never_equal |].
  split.
  { rewrite writing_feedback_bucket. unfold Spec.feedbackFor.
    apply app_writing_bundle_keys.
    pose proof (bucket_index_bound (Spec.thresholds Spec.writing) band) as Hi.
    change (length (Spec.thresholds Spec.writing)) with 4%nat in Hi. lia. }
  split.
  { rewrite service_writing_feedback_bucket.
    apply service_writing_bundle_keys.
    pose proof (bucket_index_bound Spec.service_thresholds band) as Hj.
    change (length Spec.service_thresholds) with 4%nat in Hj. lia. }
  apply Forall_forall. intros k Hk band'.
  apply writing_text_shared_iff. exact Hk.
Qed.

(** ** Sorting class indices *)

Section ArgSort.
Variable key : nat -> Q.

Lemma insert_by_perm (i : nat) (l : list nat) :
  Permutation (insert_by key i l) (i :: l).
Proof.
  induction l as [| j l IH]; simpl; [reflexivity |].
  destruct (Qle_bool (key i) (key j)); [reflexivity |].
  rewrite IH. apply perm_swap.
Qed.

Lemma isort_by_perm (l : list nat) : Permutation (isort_by key l) l.
Proof.
  induction l as [| i l IH]; simpl; [reflexivity |].
  rewrite insert_by_perm. now apply perm_skip.
Qed.

Lemma insert_by_sorted (i : nat) (l : list nat) :
  StronglySorted (key_le key) l ->
  StronglySorted (key_le key) (insert_by key i l).
Proof.
  induction 1 as [| j l Hl IH Hj]; simpl.
  - repeat constructor.
  - destruct (Qle_bool (key i) (key j)) eqn:Hij.
    + apply Qle_bool_iff in Hij.
      constructor; [now constructor |].
      constructor; [exact Hij |].
      eapply Forall_impl; [exact Hj |].
      intros k Hjk. unfold key_le in *. now apply Qle_trans with (key j).
    + constructor; [exact IH |].
      rewrite insert_by_perm. constructor; [| exact Hj].
      unfold key_le. apply Qlt_le_weak, Qnot_le_lt.
      intros Hle. apply Qle_bool_iff in Hle. congruence.
Qed.

Lemma isort_by_sorted (l : list nat) :
  StronglySorted (key_le key) (isort_by key l).
Proof.
  induction l as [| i l IH]; simpl; [constructor |].
  now apply insert_by_sorted.
Qed.

Lemma StronglySorted_rev_flip (l : list nat) :
  StronglySorted (key_le key) l ->
  StronglySorted (flip (key_le key)) (rev l).
Proof.
  induction 1 as [| j l Hl IH Hj]; simpl; [constructor |].
  apply StronglySorted_app_2; [| exact IH | repeat constructor].
  intros x1 x2 Hx1 Hx2. apply list_elem_of_singleton in Hx2. subst x2.
  rewrite Forall_forall in Hj. apply Hj.
  apply list_elem_of_In, in_rev, list_elem_of_In. exact Hx1.
Qed.

End ArgSort.

Lemma np_argsort_perm (xs : list Q) :
  Permutation (np_argsort xs) (seq 0 (length xs)).
Proof. apply isort_by_perm. Qed.

Lemma np_argsort_sorted (xs : list Q) :
  StronglySorted (key_le (fun i => nth i xs 0)) (np_argsort xs).
Proof. apply isort_by_sorted. Qed.

(** ** The first maximum *)

Lemma argmax_from_spec (xs pre : list Q) (best_i : nat) (best : Q) :
  (best_i < length pre)%nat ->
  best = nth best_i (pre ++ xs) 0 ->
  (forall j, (j < length pre)%nat -> nth j (pre ++ xs) 0 <= best) ->
  (forall j, (j < best_i)%nat -> nth j (pre ++ xs) 0 < best) ->
  let m := argmax_from best_i best (length pre) xs in
  (m < length (pre ++ xs))%nat
  /\ (forall j, (j < length (pre ++ xs))%nat ->
                nth j (pre ++ xs) 0 <= nth m (pre ++ xs) 0)
  /\ (forall j, (j < m)%nat -> nth j (pre ++ xs) 0 < nth m (pre ++ xs) 0).
Proof.
  revert pre best_i best.
  induction xs as [| x xs IH]; intros pre best_i best Hi Hbest Hmax Hfirst; simpl.
  - rewrite app_nil_r in *. subst best. repeat split; auto.
  - assert (Hx : nth (length pre) (pre ++ x :: xs) 0 = x).
    { rewrite app_nth2 by lia. now rewrite Nat.sub_diag. }
    pose proof (IH (pre ++ [x])) as IH'.
    rewrite <- app_assoc, length_app in IH'. simpl in IH'.
    replace (length pre + 1)%nat with (S (length pre)) in IH' by lia.
    case_Qltb best x.
    + apply IH'.
      * lia.
      * now rewrite Hx.
      * intros j Hj.
        destruct (decide (j = length pre)) as [-> | Hne].
        -- rewrite Hx. apply Qle_refl.
        -- apply Qle_trans with best; [apply Hmax; lia | now apply Qlt_le_weak].
      * intros j Hj.
        apply Qle_lt_trans with best; [apply Hmax; lia | exact Hcmp].
    + apply IH'.
      * lia.
      * exact Hbest.
      * intros j Hj.
        destruct (decide (j = length pre)) as [-> | Hne].
        -- now rewrite Hx.
        -- apply Hmax. lia.
      * exact Hfirst.
Qed.

Lemma np_argmax_spec (xs : list Q) :
  xs <> [] ->
  exists m, np_argmax xs = Ok m
    /\ (m < length xs)%nat
    /\ (forall j, (j < length xs)%nat -> nth j xs 0 <= nth m xs 0)
    /\ (forall j, (j < m)%nat -> nth j xs 0 < nth m xs 0).
Proof.
  destruct xs as [| x xs]; [congruence |]. intros _.
  exists (argmax_from 0 x 1 xs). split; [reflexivity |].
  apply (argmax_from_spec xs [x] 0%nat x); simpl.
  - lia.
  - reflexivity.
  - intros j Hj. assert (j = 0%nat) as -> by lia. apply Qle_refl.
  - intros j Hj. lia.
Qed.

(** ** Writing band prediction *)

Lemma writing_band_lookup (i : nat) :
  (i < 12)%nat ->
  getitem App.WRITING_IDX_TO_BAND i = Ok (nth i App.WRITING_BAND_CLASSES 0).
Proof.
  intros Hi.
  do 12 (destruct i as [| i]; [reflexivity |]). lia.
Qed.

Lemma writing_band_range (i : nat) :
  (i < 12)%nat ->
  Qle_bool 3.5 (nth i App.WRITING_BAND_CLASSES 0)
  && Qle_bool (nth i App.WRITING_BAND_CLASSES 0) 9 = true.
Proof.
  intros Hi.
  do 12 (destruct i as [| i]; [reflexivity |]). lia.
Qed.

Lemma top_predictions_of_entries (probs : list Q) (idxs : list nat) :
  Forall (fun i => (i < 12)%nat) idxs ->
  App.top_predictions_of probs idxs = Ok (map (Spec.entry probs) idxs).
Proof.
  induction 1 as [| i idxs Hi _ IH]; simpl; [reflexivity |].
  rewrite (writing_band_lookup i Hi). cbn [mbind result_bind].
  rewrite IH. reflexivity.
Qed.

(** The three indices [np.argsort(probs)[::-1][:3]] yields for twelve
    classes: distinct classes, in non-increasing order of probability, and
    no class left out has a larger probability than the third. *)
Lemma top_indices_spec (probs : list Q) :
  length probs = 12%nat ->
  exists i1 i2 i3,
    take 3 (rev (np_argsort probs)) = [i1; i2; i3]
    /\ NoDup [i1; i2; i3]
    /\ Forall (fun i => (i < 12)%nat) [i1; i2; i3]
    /\ nth i2 probs 0 <= nth i1 probs 0
    /\ nth i3 probs 0 <= nth i2 probs 0
    /\ (forall j, (j < 12)%nat -> nth j probs 0 <= nth i1 probs 0)
    /\ (forall j, (j < 12)%nat -> j ∉ [i1; i2; i3] ->
                  nth j probs 0 <= nth i3 probs 0).
Proof.
  intros Hlen.
  pose proof (np_argsort_perm probs) as Hperm. rewrite Hlen in Hperm.
  apply (Permutation_rev' ) in Hperm.
  assert (Hperm' : Permutation (rev (np_argsort probs)) (seq 0 12)).
  { rewrite Hperm. symmetry. apply Permutation_rev. }
  clear Hperm.
  pose proof (StronglySorted_rev_flip _ _ (np_argsort_sorted probs)) as Hsorted.
  assert (Hlen' : length (rev (np_argsort probs)) = 12%nat)
    by (rewrite (Permutation_length Hperm'); reflexivity).
  assert (Hnodup : NoDup (rev (np_argsort probs)))
    by (rewrite Hperm'; apply NoDup_seq).
  assert (Hin : forall j, j ∈ rev (np_argsort probs) <-> (j < 12)%nat).
  { intros j. rewrite Hperm', elem_of_seq. lia. }
  destruct (rev (np_argsort probs)) as [| i1 [| i2 [| i3 rest]]];
    try discriminate Hlen'.
  exists i1, i2, i3. simpl.
  apply StronglySorted_cons in Hsorted as [H1 Hsorted].
  apply StronglySorted_cons in Hsorted as [H2 Hsorted].
  apply StronglySorted_cons in Hsorted as [H3 Hsorted].
  rewrite Forall_forall in H1, H2, H3. unfold flip, key_le in H1, H2, H3.
  assert (H12 : nth i2 probs 0 <= nth i1 probs 0) by (apply H1; constructor).
  assert (H23 : nth i3 probs 0 <= nth i2 probs 0) by (apply H2; constructor).
  assert (Hrest : forall j, (j < 12)%nat -> j ∉ [i1; i2; i3] ->
                            nth j probs 0 <= nth i3 probs 0).
  { intros j Hj Hnot. apply H3. apply Hin in Hj.
    rewrite !not_elem_of_cons in Hnot. rewrite !elem_of_cons in Hj.
    destruct Hj as [-> | [-> | [-> | Hj]]]; tauto. }
  split; [reflexivity |].
  split.
  { apply (NoDup_app [i1; i2; i3] rest) in Hnodup. tauto. }
  split.
  { rewrite !Forall_cons.
    repeat split; try (apply Hin; rewrite !elem_of_cons; tauto).
    apply List.Forall_nil. }
  split; [exact H12 |]. split; [exact H23 |]. split; [| exact Hrest].
  intros j Hj.
  destruct (decide (j = i1)) as [-> | Hn1]; [apply Qle_refl |].
  apply H1. apply Hin in Hj. rewrite elem_of_cons in Hj. tauto.
Qed.

Lemma result_bind_Ok {A B} (f : A -> result B) (a : A) :
  mbind f (Ok a) = f a.
Proof. reflexivity. Qed.

Lemma predict_writing_band_spec (w : World) (essay : pystr) :
  length (writing_probs w essay) = 12%nat ->
  exists m i1 i2 i3,
    App.predict_writing_band w essay
    = Ok {| App.predicted_band := nth m App.WRITING_BAND_CLASSES 0;
            App.predicted_confidence := nth m (writing_probs w essay) 0;
            App.predicted_top :=
              map (Spec.entry (writing_probs w essay)) [i1; i2; i3] |}
    /\ np_argmax (writing_probs w essay) = Ok m
    /\ take 3 (rev (np_argsort (writing_probs w essay))) = [i1; i2; i3].
Proof.
  intros Hlen. unfold App.predict_writing_band.
  destruct (np_argmax_spec (writing_probs w essay))
    as (m & Hm & Hlt & _); [intros E; rewrite E in Hlen; discriminate |].
  destruct (top_indices_spec _ Hlen) as (i1 & i2 & i3 & Htake & _ & Hidx & _).
  exists m, i1, i2, i3.
  rewrite Hm, Htake, result_bind_Ok.
  rewrite (top_predictions_of_entries _ _ Hidx), result_bind_Ok.
  rewrite writing_band_lookup, result_bind_Ok by lia.
  auto.
Qed.

(** C4, as the specification has it, fails where two classes tie for the
    largest probability: for probabilities [0.5; 0.5; 0; ...] the answer
    lists band 4.0 before band 3.5 (the higher class index first), where the
    specification's ranking lists 3.5 first, and the band returned beside it
    is 3.5. *)
Lemma top_predictions_tie_lists_higher_class_first :
  exists body,
    App.score_writing Examples.world Examples.essay = App.Http200 body
    /\ App.WritingResponse.top_predictions body
       = [ {| App.band := 4.0; App.probability := 0.5 |};
           {| App.band := 3.5; App.probability := 0.5 |};
           {| App.band := 9.0; App.probability := 0 |} ]
    /\ map (fun p => (Some (App.band p), App.probability p))
           (App.WritingResponse.top_predictions body)
       <> Spec.top3 Examples.tie_probs
    /\ App.WritingResponse.overall_band body = 3.5.
Proof.
  eexists. split; [vm_compute; reflexivity |].
  split; [reflexivity |]. split; [| reflexivity].
  vm_compute. discriminate.
Qed.

(** C4, amended.  For an essay of at least 50 characters scored over the 12
    band classes, [score_writing] answers with exactly three top
    predictions, each the band and probability of a distinct class, in
    non-increasing order of probability, and no class left out is more
    probable than the third; the band returned is that of the class of
    largest probability with the lowest index, and the confidence is that
    class's probability, equal to the probability of the first prediction;
    the feedback is the one of the band returned.  The model's output is
    taken to be a probability, between 0 and 1, for each class. *)
Theorem score_writing_top_predictions (w : World) (essay : pystr)
    (Hlen : (50 <= length essay)%nat)
    (Hcls : length (writing_probs w essay) = 12%nat)
    (Hprob : Forall (fun p => 0 <= p /\ p <= 1) (writing_probs w essay)) :
  exists body m i1 i2 i3,
    App.score_writing w essay = App.Http200 body
    /\ np_argmax (writing_probs w essay) = Ok m
    /\ (m < 12)%nat
    /\ App.WritingResponse.overall_band body
       = nth m App.WRITING_BAND_CLASSES 0
    /\ App.WritingResponse.confidence body = nth m (writing_probs w essay) 0
    /\ (forall j, (j < 12)%nat ->
          nth j (writing_probs w essay) 0 <= nth m (writing_probs w essay) 0)
    /\ (forall j, (j < m)%nat ->
          nth j (writing_probs w essay) 0 < nth m (writing_probs w essay) 0)
    /\ App.WritingResponse.top_predictions body
       = map (Spec.entry (writing_probs w essay)) [i1; i2; i3]
    /\ NoDup [i1; i2; i3]
    /\ Forall (fun i => (i < 12)%nat) [i1; i2; i3]
    /\ nth i2 (writing_probs w essay) 0 <= nth i1 (writing_probs w essay) 0
    /\ nth i3 (writing_probs w essay) 0 <= nth i2 (writing_probs w essay) 0
    /\ (forall j, (j < 12)%nat -> j ∉ [i1; i2; i3] ->
          nth j (writing_probs w essay) 0 <= nth i3 (writing_probs w essay) 0)
    /\ nth i1 (writing_probs w essay) 0 == nth m (writing_probs w essay) 0
    /\ App.WritingResponse.feedback body
       = App.build_writing_feedback (App.WritingResponse.overall_band body).
Proof.
  destruct (predict_writing_band_spec w essay Hcls)
    as (m & i1 & i2 & i3 & Hpred & Hm & Htake).
  destruct (np_argmax_spec (writing_probs w essay))
    as (m' & Hm' & Hlt & Hmax & Hfirst);
    [intros E; rewrite E in Hcls; discriminate |].
  rewrite Hm in Hm'. injection Hm' as <-. rewrite Hcls in Hlt, Hmax.
  destruct (top_indices_spec _ Hcls)
    as (j1 & j2 & j3 & Htake' & Hnodup & Hidx & H12 & H23 & Htop & Hrest).
  rewrite Htake in Htake'. injection Htake' as <- <- <-.
  assert (Hconf : 0 <= nth m (writing_probs w essay) 0
                  /\ nth m (writing_probs w essay) 0 <= 1).
  { rewrite Forall_forall in Hprob. apply Hprob.
    apply list_elem_of_In, nth_In. now rewrite Hcls. }
  eexists _, m, i1, i2, i3.
  split.
  { unfold App.score_writing.
    replace (length essay <? 50)%nat with false
      by (symmetry; apply Nat.ltb_ge; exact Hlen).
    rewrite Hpred. cbv beta iota zeta. unfold App.WritingResponse.valid.
    cbn [App.WritingResponse.overall_band App.WritingResponse.confidence
         App.predicted_band App.predicted_confidence].
    rewrite (writing_band_range m Hlt).
    destruct Hconf as [H0 H1]. apply Qle_bool_iff in H0, H1.
    rewrite H0, H1. reflexivity. }
  cbn [App.WritingResponse.overall_band App.WritingResponse.confidence
       App.WritingResponse.top_predictions App.WritingResponse.feedback
       App.predicted_band App.predicted_confidence App.predicted_top].
  repeat (split; [assumption || reflexivity |]).
  split; [| reflexivity].
  apply Qle_antisym; [| apply Htop; exact Hlt].
  apply Hmax. now inversion Hidx.
Qed.

Lemma score_writing_top_predictions_witness :
  ((50 <= length Examples.essay)%nat
   /\ length (writing_probs Examples.world Examples.essay) = 12%nat
   /\ Forall (fun p => 0 <= p /\ p <= 1)
             (writing_probs Examples.world Examples.essay))
  /\ exists body, App.score_writing Examples.world Examples.essay
                  = App.Http200 body.
Proof.
  assert (H : (50 <= length Examples.essay)%nat
              /\ length (writing_probs Examples.world Examples.essay) = 12%nat
              /\ Forall (fun p => 0 <= p /\ p <= 1)
                        (writing_probs Examples.world Examples.essay)).
  { split; [simpl; lia |]. split; [reflexivity |].
    repeat (constructor; [split; unfold Qle; simpl; lia |]). constructor. }
  split; [exact H |].
  destruct H as (Hlen & Hcls & Hprob).
  destruct (score_writing_top_predictions _ _ Hlen Hcls Hprob)
    as (body & _ & _ & _ & _ & Hbody & _).
  exists body. exact Hbody.
Defined.

(** ** CEFR level and band *)

Lemma cefr_of_index (i : nat) :
  (i < 6)%nat ->
  exists cefr band,
    getitem SpeakingService.ID2LABEL i = Ok cefr
    /\ getitem App.ID2LABEL i = Ok cefr
    /\ cefr ∈ SpeakingService.CEFR_LABELS
    /\ SpeakingService.CEFR_TO_IELTS !! cefr = Some band
    /\ App.CEFR_TO_IELTS !! cefr = Some band.
Proof.
  intros Hi.
  do 6 (destruct i as [| i];
        [eexists _, _; split; [reflexivity |]; split; [reflexivity |];
         split; [repeat constructor | split; reflexivity] |]).
  lia.
Qed.

Lemma predict_cefr_and_band_spec (w : World) (text : pystr) :
  speaking_model_exists w = true ->
  length (speaking_logits w text) = 6%nat ->
  exists cefr band,
    SpeakingService.predict_cefr_and_band w text = Ok (cefr, band)
    /\ App.predict_cefr_and_band w text = Ok (cefr, band)
    /\ cefr ∈ SpeakingService.CEFR_LABELS
    /\ SpeakingService.CEFR_TO_IELTS !! cefr = Some band
    /\ App.CEFR_TO_IELTS !! cefr = Some band.
Proof.
  intros Hmodel Hlen.
  destruct (np_argmax_spec (speaking_logits w text))
    as (m & Hm & Hlt & _); [intros E; rewrite E in Hlen; discriminate |].
  rewrite Hlen in Hlt.
  destruct (cefr_of_index m Hlt) as (cefr & band & Hs & Ha & Hin & Hbs & Hba).
  exists cefr, band.
  unfold SpeakingService.predict_cefr_and_band, App.predict_cefr_and_band,
    SpeakingService._load_model, App.get_speaking_model.
  rewrite Hmodel, !result_bind_Ok, Hm, !result_bind_Ok, Hs, Ha,
    !result_bind_Ok, Hbs, Hba.
  auto.
Qed.

(** C6. The CEFR-to-band table is defined on each of the six labels, and the
    speaking predictor goes through it: whenever the model is present and
    answers with six logits, the call returns a level among A1..C2 together
    with the band the table gives that level, in [speaking_service.py] and
    in [app.py] alike; so two calls that predict the same level return the
    same band. *)
Theorem cefr_band_is_a_function_of_level (w1 w2 : World) (text1 text2 : pystr)
    (Hmodel1 : speaking_model_exists w1 = true)
    (Hmodel2 : speaking_model_exists w2 = true)
    (Hlogits1 : length (speaking_logits w1 text1) = 6%nat)
    (Hlogits2 : length (speaking_logits w2 text2) = 6%nat) :
  exists cefr1 band1 cefr2 band2,
    SpeakingService.predict_cefr_and_band w1 text1 = Ok (cefr1, band1)
    /\ SpeakingService.predict_cefr_and_band w2 text2 = Ok (cefr2, band2)
    /\ App.predict_cefr_and_band w1 text1 = Ok (cefr1, band1)
    /\ cefr1 ∈ SpeakingService.CEFR_LABELS
    /\ App.CEFR_TO_IELTS !! cefr1 = Some band1
    /\ (cefr1 = cefr2 -> band1 = band2)
    /\ Forall (fun label => is_Some (App.CEFR_TO_IELTS !! label))
              App.CEFR_LABELS
    /\ App.CEFR_TO_IELTS = SpeakingService.CEFR_TO_IELTS.
Proof.
  destruct (predict_cefr_and_band_spec w1 text1 Hmodel1 Hlogits1)
    as (cefr1 & band1 & Hs1 & Ha1 & Hin1 & Hbs1 & Hba1).
  destruct (predict_cefr_and_band_spec w2 text2 Hmodel2 Hlogits2)
    as (cefr2 & band2 & Hs2 & _ & _ & Hbs2 & _).
  exists cefr1, band1, cefr2, band2.
  repeat (split; [assumption |]).
  split; [intros ->; congruence |].
  split; [| reflexivity].
  repeat (constructor; [eexists; reflexivity |]). constructor.
Qed.

Lemma cefr_band_is_a_function_of_level_witness :
  (speaking_model_exists Examples.world = true
   /\ length (speaking_logits Examples.world Examples.essay) = 6%nat)
  /\ exists cefr band,
       SpeakingService.predict_cefr_and_band Examples.world Examples.essay
       = Ok (cefr, band)
       /\ cefr ∈ SpeakingService.CEFR_LABELS
       /\ App.CEFR_TO_IELTS !! cefr = Some band.
Proof.
  split; [split; reflexivity |].
  destruct (cefr_band_is_a_function_of_level
              Examples.world Examples.world Examples.essay Examples.essay
              eq_refl eq_refl eq_refl eq_refl)
    as (cefr1 & band1 & _ & _ & H & _ & _ & Hin & Hband & _).
  exists cefr1, band1. auto.
Defined.

(** ** Paths of temporary files *)

Lemma split_on_no_sep (sep : N) (s : pystr) :
  Forall (fun c => c <> sep) s -> split_on sep s = [s].
Proof.
  induction 1 as [| c s Hc _ IH]; simpl; [reflexivity |].
  apply N.eqb_neq in Hc. rewrite Hc, IH. reflexivity.
Qed.

Lemma rfind_absent (c : N) (s : pystr) :
  Forall (fun x => x <> c) s -> rfind c s = None.
Proof.
  induction 1 as [| x s Hx _ IH]; simpl; [reflexivity |].
  apply N.eqb_neq in Hx. rewrite IH, Hx. reflexivity.
Qed.

Lemma rfind_last (c : N) (a b : pystr) :
  Forall (fun x => x <> c) b -> rfind c (a ++ c :: b) = Some (length a).
Proof.
  intros Hb. induction a as [| x a IH]; simpl.
  - rewrite (rfind_absent c b Hb), N.eqb_refl. reflexivity.
  - rewrite IH. reflexivity.
Qed.

Lemma tmp_char_plain (c : N) :
  is_tmp_char c = true -> c <> slash /\ c <> dot.
Proof.
  unfold is_tmp_char, slash, dot. intros H.
  split; intros ->; discriminate H.
Qed.

(** The suffix of a name [stem ++ "." ++ ext] under [/tmp/], for a stem and
    an extension free of dots and slashes. *)
Lemma path_suffix_tmp (stem ext : pystr) :
  stem <> [] ->
  ext <> [] ->
  Forall (fun c => c <> slash /\ c <> dot) stem ->
  Forall (fun c => c <> slash /\ c <> dot) ext ->
  path_suffix (py "/tmp/" ++ stem ++ dot :: ext) = dot :: ext.
Proof.
  intros Hstem Hext Hs He.
  assert (Hname : path_name (py "/tmp/" ++ stem ++ dot :: ext)
                  = stem ++ dot :: ext).
  { unfold path_name.
    change (py "/tmp/" ++ stem ++ dot :: ext)
      with (slash :: 116%N :: 109%N :: 112%N :: slash :: (stem ++ dot :: ext)).
    assert (Hsplit : split_on slash (stem ++ dot :: ext) = [stem ++ dot :: ext]).
    { apply split_on_no_sep. apply Forall_app. split.
      - eapply Forall_impl; [exact Hs |]. intros ? [? ?]; assumption.
      - constructor; [discriminate |].
        eapply Forall_impl; [exact He |]. intros ? [? ?]; assumption. }
    cbn [split_on N.eqb Pos.eqb slash]. rewrite Hsplit.
    cbn [List.filter].
    rewrite (bool_decide_eq_true_2 _ (or_introl eq_refl)).
    rewrite bool_decide_eq_false_2 by (intros [H | H]; discriminate H).
    rewrite bool_decide_eq_false_2; [reflexivity |].
    destruct stem as [| c stem]; [congruence |].
    intros [H | H]; [discriminate H |].
    injection H as -> H. inversion Hs as [| ? ? [_ Hc] _]. congruence. }
  unfold path_suffix. rewrite Hname.
  rewrite rfind_last
    by (eapply Forall_impl; [exact He |]; intros ? [? ?]; assumption).
  rewrite length_app. simpl length.
  destruct stem as [| c stem]; [congruence |].
  destruct ext as [| e ext]; [congruence |].
  replace ((0 <? length (c :: stem))
           && (length (c :: stem) <? length (c :: stem) + S (length (e :: ext)) - 1))%nat
    with true.
  - apply drop_app_length.
  - symmetry. apply andb_true_iff. split; apply Nat.ltb_lt; simpl; lia.
Qed.

(** The temporary file made for a supported suffix carries that suffix. *)
Lemma temp_path_suffix (w : World) (suffix : pystr) :
  forallb is_tmp_char (tmp_rand w) = true ->
  suffix ∈ SpeechService.SUPPORTED_AUDIO_FORMATS ->
  lower (path_suffix (SpeechService.temp_path_for w suffix)) = suffix.
Proof.
  intros Hrand Hsup.
  assert (Hstem : Forall (fun c => c <> slash /\ c <> dot)
                         (py "tmp" ++ tmp_rand w)).
  { apply Forall_app. split.
    - repeat (constructor; [split; discriminate |]). constructor.
    - apply List.Forall_forall. intros c Hc. apply tmp_char_plain.
      rewrite forallb_forall in Hrand. now apply Hrand. }
  assert (Hpath : forall ext,
             SpeechService.temp_path_for w (dot :: ext)
             = py "/tmp/" ++ (py "tmp" ++ tmp_rand w) ++ dot :: ext)
    by reflexivity.
  unfold SpeechService.SUPPORTED_AUDIO_FORMATS in Hsup.
  rewrite !elem_of_union, !elem_of_singleton in Hsup.
  destruct Hsup as [[[[[[-> | ->] | ->] | ->] | ->] | ->] | ->];
    (match goal with
     | |- context [SpeechService.temp_path_for w (py ?s)] =>
         change (py s) with (dot :: tl (py s))
     end;
     rewrite Hpath, path_suffix_tmp;
     [reflexivity | discriminate | discriminate | exact Hstem
     | repeat (constructor; [split; discriminate |]); constructor]).
Qed.

(** ** Transcription of a byte payload *)

(** With a supported suffix and a successful write, the body of the [with]
    block runs on the file system holding the temporary file, and the
    [finally] clause then tries to unlink it. *)
Lemma transcribe_audio_bytes_supported (w : World)
    (fs : SpeechService.filesystem) (audio_bytes : list Byte.byte)
    (filename language : pystr) (task : whisper_task) (inc : bool) :
  SpeechService.upload_suffix filename ∈ SpeechService.SUPPORTED_AUDIO_FORMATS ->
  tmp_write_ok w = true ->
  SpeechService.transcribe_audio_bytes w fs audio_bytes filename language task inc
  = (if unlink_ok w
     then delete (SpeechService.temp_path_for w (SpeechService.upload_suffix filename)) fs
     else <[SpeechService.temp_path_for w (SpeechService.upload_suffix filename)
            := audio_bytes]> fs,
     SpeechService.transcribe_audio w
       (<[SpeechService.temp_path_for w (SpeechService.upload_suffix filename)
          := audio_bytes]> fs)
       (SpeechService.temp_path_for w (SpeechService.upload_suffix filename))
       language task inc).
Proof.
  intros Hsup Hwrite.
  unfold SpeechService.transcribe_audio_bytes, SpeechService.temp_audio_file.
  rewrite (bool_decide_eq_true_2 _ Hsup), Hwrite. cbv beta iota zeta. cbn [negb].
  rewrite lookup_insert_eq.
  rewrite (bool_decide_eq_true_2 (is_Some (Some audio_bytes))) by eauto.
  rewrite delete_insert_eq. reflexivity.
Qed.

Lemma transcribe_audio_bytes_unsupported (w : World)
    (fs : SpeechService.filesystem) (audio_bytes : list Byte.byte)
    (filename language : pystr) (task : whisper_task) (inc : bool) :
  SpeechService.upload_suffix filename ∉ SpeechService.SUPPORTED_AUDIO_FORMATS ->
  SpeechService.transcribe_audio_bytes w fs audio_bytes filename language task inc
  = (fs, Raise (AudioValidationError
                  (UnsupportedUpload (SpeechService.upload_suffix filename)))).
Proof.
  intros Hsup. unfold SpeechService.transcribe_audio_bytes.
  rewrite (bool_decide_eq_false_2 _ Hsup). reflexivity.
Qed.

(** On the temporary file the existence and extension checks of
    [validate_audio_file] always pass; the size checks remain. *)
Lemma validate_temp_file (w : World) (fs : SpeechService.filesystem)
    (content : list Byte.byte) (suffix : pystr) :
  forallb is_tmp_char (tmp_rand w) = true ->
  suffix ∈ SpeechService.SUPPORTED_AUDIO_FORMATS ->
  SpeechService.validate_audio_file
    (<[SpeechService.temp_path_for w suffix := content]> fs)
    (SpeechService.temp_path_for w suffix)
  = if (25 * Spec.MiB <? SpeechService.size_of content)%N
    then Raise (AudioValidationError (TooLarge (SpeechService.size_of content)))
    else if (SpeechService.size_of content =? 0)%N
         then Raise (AudioValidationError EmptyFile)
         else Ok tt.
Proof.
  intros Hrand Hsup. unfold SpeechService.validate_audio_file.
  rewrite lookup_insert_eq, (temp_path_suffix w suffix Hrand Hsup).
  rewrite (bool_decide_eq_true_2 _ Hsup). reflexivity.
Qed.

Lemma get_audio_duration_of_file (w : World) (fs : SpeechService.filesystem)
    (file_path : pystr) (content : list Byte.byte) :
  fs !! file_path = Some content ->
  SpeechService.get_audio_duration w fs file_path
  = default 0.0 (Spec.decoded_duration w content).
Proof.
  intros Hfile. unfold SpeechService.get_audio_duration, Spec.decoded_duration.
  rewrite Hfile. destruct (load_audio w content); reflexivity.
Qed.

(** C1, as the specification has it, fails on an empty payload named
    [speech.xyz]: the specification's order rejects it as empty, the code
    rejects it for its extension, in the service and at [/api/transcribe]
    (only [/api/speaking/score-audio] turns an empty upload away first, with
    an error of its own).  It also fails on a payload named [recording]: the
    name has no extension, and the code takes it for a [.wav] file. *)
Lemma empty_upload_rejected_for_its_extension :
  Spec.claimed_verdict (lower (path_suffix (py "speech.xyz")))
    (SpeechService.size_of []) (Spec.decoded_duration Examples.world [])
  = Some EmptyFile
  /\ snd (SpeechService.transcribe_audio_bytes Examples.world ∅ []
            (py "speech.xyz") (py "en") Transcribe false)
     = Raise (AudioValidationError (UnsupportedUpload (py ".xyz")))
  /\ App.reply (App.transcribe_audio Examples.world ∅ []
                  (Some (py "speech.xyz")) (py "en"))
     = App.HTTPException 400
         (App.ValidationMessage (UnsupportedUpload (py ".xyz")))
  /\ App.reply (App.score_speaking_audio Examples.world ∅ []
                  (Some (py "speech.xyz")) (py "en"))
     = App.HTTPException 400 (App.Message "Empty audio file")
  /\ Spec.claimed_verdict (lower (path_suffix (py "recording")))
       (SpeechService.size_of Examples.payload)
       (Spec.decoded_duration Examples.world Examples.payload)
     = Some (UnsupportedUpload [])
  /\ exists result,
       snd (SpeechService.transcribe_audio_bytes Examples.world ∅
              Examples.payload (py "recording") (py "en") Transcribe false)
       = Ok result.
Proof.
  repeat (split; [reflexivity |]).
  eexists. vm_compute. reflexivity.
Qed.

(** C1, amended.  Every transcription of a byte payload applies the checks
    in the order: (1) the extension of the file name, lower-cased and taken
    as [.wav] when the name has none, is one of mp3, wav, m4a, flac, ogg,
    webm, mp4; (2) the payload is not empty; (3) the payload has at most
    25 MiB; (4) the decoded duration is at most 300 seconds.  The first check
    that fails raises [AudioValidationError] with its own reason, whatever
    later checks would say; when none fails no [AudioValidationError] is
    raised.  (The code tests the size limit before emptiness; no payload
    fails both.) *)
Theorem audio_validation_order (w : World) (fs : SpeechService.filesystem)
    (audio_bytes : list Byte.byte) (filename language : pystr)
    (task : whisper_task) (include_segments : bool)
    (Hrand : forallb is_tmp_char (tmp_rand w) = true)
    (Hwrite : tmp_write_ok w = true) :
  match Spec.verdict (SpeechService.upload_suffix filename)
          (SpeechService.size_of audio_bytes)
          (Spec.decoded_duration w audio_bytes) with
  | Some reason =>
      snd (SpeechService.transcribe_audio_bytes w fs audio_bytes filename
             language task include_segments)
      = Raise (AudioValidationError reason)
  | None =>
      forall reason,
        snd (SpeechService.transcribe_audio_bytes w fs audio_bytes filename
               language task include_segments)
        <> Raise (AudioValidationError reason)
  end.
Proof.
  unfold Spec.verdict.
  destruct (decide (SpeechService.upload_suffix filename
                    ∈ SpeechService.SUPPORTED_AUDIO_FORMATS)) as [Hsup | Hsup].
  2: { rewrite (bool_decide_eq_false_2 _ Hsup). cbn [negb].
       now rewrite transcribe_audio_bytes_unsupported. }
  rewrite (bool_decide_eq_true_2 _ Hsup). cbn [negb].
  rewrite transcribe_audio_bytes_supported by assumption. cbn [snd].
  unfold SpeechService.transcribe_audio.
  rewrite (validate_temp_file w fs audio_bytes _ Hrand Hsup).
  destruct (SpeechService.size_of audio_bytes =? 0)%N eqn:Hempty.
  { apply N.eqb_eq in Hempty. rewrite Hempty. reflexivity. }
  destruct (25 * Spec.MiB <? SpeechService.size_of audio_bytes)%N;
    [reflexivity |].
  rewrite result_bind_Ok.
  rewrite (get_audio_duration_of_file w _ _ audio_bytes)
    by apply lookup_insert_eq.
  unfold Spec.decoded_duration.
  destruct (load_audio w audio_bytes) as [samples |];
    cbn [fmap option_fmap option_map default].
  - destruct (Qltb _ _); [reflexivity |].
    destruct (whisper_model_ok w); cbn [negb]; [| discriminate].
    destruct (whisper_transcribe w _ language task); discriminate.
  - replace (Qltb SpeechService.MAX_AUDIO_DURATION_SECONDS 0.0) with false
      by reflexivity.
    destruct (whisper_model_ok w); cbn [negb]; [| discriminate].
    destruct (whisper_transcribe w _ language task); discriminate.
Qed.

Lemma audio_validation_order_witness :
  (forallb is_tmp_char (tmp_rand Examples.world) = true
   /\ tmp_write_ok Examples.world = true)
  /\ snd (SpeechService.transcribe_audio_bytes Examples.world ∅ []
            (py "speech.MP3") (py "en") Transcribe false)
     = Raise (AudioValidationError EmptyFile).
Proof.
  split; [split; reflexivity |].
  exact (audio_validation_order Examples.world ∅ [] (py "speech.MP3") (py "en")
           Transcribe false eq_refl eq_refl).
Defined.

(** C8, as the specification has it, fails when the operating system
    refuses the unlink: the failure is logged and swallowed, the
    transcription returns normally, and the temporary file is still there. *)
Lemma temp_file_survives_failed_unlink :
  fst (SpeechService.transcribe_audio_bytes Examples.world_unlink_fails ∅
         Examples.payload (py "speech.wav") (py "en") Transcribe false)
    !! SpeechService.temp_path_for Examples.world_unlink_fails (py ".wav")
  = Some Examples.payload
  /\ exists result,
       snd (SpeechService.transcribe_audio_bytes Examples.world_unlink_fails ∅
              Examples.payload (py "speech.wav") (py "en") Transcribe false)
       = Ok result.
Proof.
  split; [vm_compute; reflexivity |].
  eexists. vm_compute. reflexivity.
Qed.

(** C8, amended.  Whenever the payload was written to its temporary file
    and [os.unlink] does not fail, the temporary file is gone when the
    transcription of a byte payload completes, on every exit path: whatever
    the operation returns or raises, the file system it leaves is the one it
    found without the temporary path (and untouched when the extension was
    refused before any file was made).  A failure of [os.unlink] is logged
    and swallowed. *)
Theorem temp_file_removed_when_unlink_succeeds (w : World)
    (fs : SpeechService.filesystem) (audio_bytes : list Byte.byte)
    (filename language : pystr) (task : whisper_task) (include_segments : bool)
    (Hwrite : tmp_write_ok w = true)
    (Hunlink : unlink_ok w = true) :
  fst (SpeechService.transcribe_audio_bytes w fs audio_bytes filename
         language task include_segments)
  = if bool_decide (SpeechService.upload_suffix filename
                    ∈ SpeechService.SUPPORTED_AUDIO_FORMATS)
    then delete (SpeechService.temp_path_for w
                   (SpeechService.upload_suffix filename)) fs
    else fs.
Proof.
  case_bool_decide as Hsup.
  - rewrite transcribe_audio_bytes_supported by assumption.
    rewrite Hunlink. reflexivity.
  - now rewrite transcribe_audio_bytes_unsupported.
Qed.

Lemma temp_file_removed_when_unlink_succeeds_witness :
  (tmp_write_ok Examples.world = true /\ unlink_ok Examples.world = true)
  /\ fst (SpeechService.transcribe_audio_bytes Examples.world ∅
            Examples.payload (py "speech.wav") (py "en") Transcribe false)
       !! SpeechService.temp_path_for Examples.world (py ".wav")
     = None.
Proof.
  split; [split; reflexivity |].
  rewrite (temp_file_removed_when_unlink_succeeds Examples.world ∅
             Examples.payload (py "speech.wav") (py "en") Transcribe false
             eq_refl eq_refl).
  reflexivity.
Defined.

(** C9. When the audio cannot be decoded, [get_audio_duration] answers 0.0
    instead of raising; a file that passed [validate_audio_file] therefore
    passes the 300-second check, and [transcribe_audio] goes on to load the
    model and call the recogniser: what it returns is the recogniser's
    transcript with duration 0.0, and what it raises, if anything, is a
    [RuntimeError], never an [AudioValidationError]. *)
Theorem undecodable_audio_reaches_recogniser (w : World)
    (fs : SpeechService.filesystem) (file_path language : pystr)
    (content : list Byte.byte) (task : whisper_task) (include_segments : bool)
    (Hfile : fs !! file_path = Some content)
    (Hvalid : SpeechService.validate_audio_file fs file_path = Ok tt)
    (Hdecode : load_audio w content = None) :
  SpeechService.get_audio_duration w fs file_path = 0.0
  /\ SpeechService.transcribe_audio w fs file_path language task include_segments
     = (if whisper_model_ok w then
          match whisper_transcribe w content language task with
          | Some out =>
              Ok {| SpeechService.text := strip (default [] (out_text out));
                    SpeechService.language :=
                      default language (out_language out);
                    SpeechService.duration := 0.0;
                    SpeechService.segments :=
                      if include_segments then default [] (out_segments out)
                      else [];
                    SpeechService.confidence :=
                      SpeechService.segment_confidence
                        (if include_segments then default [] (out_segments out)
                         else []) |}
          | None => Raise TranscriptionError
          end
        else Raise WhisperLoadError)
  /\ forall reason,
       SpeechService.transcribe_audio w fs file_path language task
         include_segments
       <> Raise (AudioValidationError reason).
Proof.
  assert (Hdur : SpeechService.get_audio_duration w fs file_path = 0.0).
  { unfold SpeechService.get_audio_duration. now rewrite Hfile, Hdecode. }
  split; [exact Hdur |].
  unfold SpeechService.transcribe_audio.
  rewrite Hvalid, result_bind_Ok, Hdur, Hfile.
  replace (Qltb SpeechService.MAX_AUDIO_DURATION_SECONDS 0.0) with false
    by reflexivity.
  change (default [] (Some content)) with content.
  destruct (whisper_model_ok w); cbn [negb].
  - destruct (whisper_transcribe w content language task);
      (split; [reflexivity | discriminate]).
  - split; [reflexivity | discriminate].
Qed.

Lemma undecodable_audio_reaches_recogniser_witness :
  (Examples.files !! Examples.audio_path = Some Examples.payload
   /\ SpeechService.validate_audio_file Examples.files Examples.audio_path
      = Ok tt
   /\ load_audio Examples.world_undecodable Examples.payload = None)
  /\ SpeechService.get_audio_duration Examples.world_undecodable
       Examples.files Examples.audio_path = 0.0
  /\ forall reason,
       SpeechService.transcribe_audio Examples.world_undecodable
         Examples.files Examples.audio_path (py "en") Transcribe false
       <> Raise (AudioValidationError reason).
Proof.
  split; [repeat split; reflexivity |].
  destruct (undecodable_audio_reaches_recogniser Examples.world_undecodable
              Examples.files Examples.audio_path (py "en") Examples.payload
              Transcribe false eq_refl eq_refl eq_refl)
    as (Hdur & _ & Hnot).
  split; [exact Hdur | exact Hnot].
Defined.

(** ** Confidence of a transcription *)

Lemma fold_left_Qplus (xs : list Q) (a : Q) :
  fold_left Qplus xs a == a + foldr Qplus 0 xs.
Proof.
  revert a. induction xs as [| x xs IH]; intros a; simpl.
  - now rewrite Qplus_0_r.
  - rewrite IH. now rewrite Qplus_assoc.
Qed.

Lemma py_sum_foldr (xs : list Q) : py_sum xs == foldr Qplus 0 xs.
Proof. unfold py_sum. rewrite fold_left_Qplus. apply Qplus_0_l. Qed.

Lemma segment_confidence_spec (segs : list Segment) :
  match segs with
  | [] => SpeechService.segment_confidence segs = None
  | _ =>
      exists c,
        SpeechService.segment_confidence segs = Some c
        /\ c == 1 - Spec.arithmetic_mean
                      (map (fun seg => default 0 (no_speech_prob seg)) segs)
  end.
Proof.
  destruct segs as [| seg segs]; [reflexivity |].
  eexists. split; [reflexivity |].
  unfold Spec.arithmetic_mean. rewrite py_sum_foldr.
  unfold Qminus. apply Qplus_comp; reflexivity.
Qed.

(** C7. The segments of a transcription result are those the recogniser
    produced when segments were requested, and none otherwise; its
    confidence is 1 minus the arithmetic mean of the no-speech probabilities
    of these segments when there is at least one, and is absent when there
    is none. *)
Theorem confidence_is_one_minus_mean_no_speech (w : World)
    (fs : SpeechService.filesystem) (file_path language : pystr)
    (task : whisper_task) (include_segments : bool)
    (result : SpeechService.TranscriptionResult)
    (Hresult : SpeechService.transcribe_audio w fs file_path language task
                 include_segments = Ok result) :
  (exists content out,
      fs !! file_path = Some content
      /\ whisper_transcribe w content language task = Some out
      /\ SpeechService.segments result
         = if include_segments then default [] (out_segments out) else [])
  /\ match SpeechService.segments result with
     | [] => SpeechService.confidence result = None
     | _ =>
         exists c,
           SpeechService.confidence result = Some c
           /\ c == 1 - Spec.arithmetic_mean
                         (map (fun seg => default 0 (no_speech_prob seg))
                              (SpeechService.segments result))
     end.
Proof.
  unfold SpeechService.transcribe_audio, SpeechService.validate_audio_file
    in Hresult.
  destruct (fs !! file_path) as [content |] eqn:Hfile;
    [| discriminate Hresult].
  destruct (negb (bool_decide _)); [discriminate Hresult |].
  cbv zeta in Hresult.
  destruct (_ <? _)%N; [discriminate Hresult |].
  destruct (_ =? _)%N; [discriminate Hresult |].
  rewrite result_bind_Ok in Hresult.
  destruct (Qltb _ _); [discriminate Hresult |].
  destruct (negb (whisper_model_ok w)); [discriminate Hresult |].
  change (default [] (Some content)) with content in Hresult.
  destruct (whisper_transcribe w content language task) as [out |] eqn:Hout;
    [| discriminate Hresult].
  injection Hresult as <-.
  cbn [SpeechService.segments SpeechService.confidence].
  split; [| apply segment_confidence_spec].
  exists content, out. auto.
Qed.

Lemma confidence_is_one_minus_mean_no_speech_witness :
  exists result,
    SpeechService.transcribe_audio Examples.world Examples.files
      Examples.audio_path (py "en") Transcribe true = Ok result
    /\ exists c,
         SpeechService.confidence result = Some c
         /\ c == 1 - Spec.arithmetic_mean [0.25; 0.5].
Proof.
  eexists. split; [vm_compute; reflexivity |].
  exact (proj2 (confidence_is_one_minus_mean_no_speech Examples.world
                  Examples.files Examples.audio_path (py "en") Transcribe true
                  _ eq_refl)).
Defined.

(** ** Scoring an audio answer *)

Lemma transcribe_audio_Ok_nonempty (w : World) (fs : SpeechService.filesystem)
    (file_path language : pystr) (content : list Byte.byte)
    (task : whisper_task) (inc : bool)
    (result : SpeechService.TranscriptionResult) :
  fs !! file_path = Some content ->
  SpeechService.transcribe_audio w fs file_path language task inc = Ok result ->
  SpeechService.size_of content <> 0%N.
Proof.
  intros Hfile Hresult.
  unfold SpeechService.transcribe_audio, SpeechService.validate_audio_file
    in Hresult.
  rewrite Hfile in Hresult.
  destruct (negb (bool_decide _)); [discriminate Hresult |].
  cbv zeta in Hresult.
  destruct (_ <? _)%N; [discriminate Hresult |].
  destruct (SpeechService.size_of content =? 0)%N eqn:Hsize;
    [discriminate Hresult |].
  now apply N.eqb_neq.
Qed.

Lemma transcribe_audio_bytes_Ok_nonempty (w : World)
    (fs fs' : SpeechService.filesystem) (audio_bytes : list Byte.byte)
    (filename language : pystr) (task : whisper_task) (inc : bool)
    (result : SpeechService.TranscriptionResult) :
  SpeechService.transcribe_audio_bytes w fs audio_bytes filename language
    task inc = (fs', Ok result) ->
  SpeechService.size_of audio_bytes <> 0%N.
Proof.
  unfold SpeechService.transcribe_audio_bytes, SpeechService.temp_audio_file.
  destruct (negb (bool_decide _)); [discriminate |].
  destruct (negb (tmp_write_ok w));
    [destruct (tmp_write_failure w); discriminate |].
  cbv beta iota zeta. intros Hres. injection Hres as _ Hres.
  eapply transcribe_audio_Ok_nonempty; [| exact Hres].
  apply lookup_insert_eq.
Qed.

(** C5. In the audio-scoring flow, a transcription that succeeded with a
    transcript of fewer than 10 characters after stripping is answered with
    HTTP 400 and the detail "Could not extract meaningful text from audio.
    Please ensure clear speech."; the speaking model is not called; and the
    reply is neither the empty-upload rejection nor one of the audio
    validation errors, all of which are raised before or during
    transcription. *)
Theorem short_transcript_rejected (w : World)
    (fs fs' : SpeechService.filesystem) (audio_bytes : list Byte.byte)
    (filename : option pystr) (language : pystr)
    (result : SpeechService.TranscriptionResult)
    (Htranscribed :
       SpeechService.transcribe_audio_bytes w fs audio_bytes
         (App.filename_or_default filename) language Transcribe false
       = (fs', Ok result))
    (Hshort : (length (strip (SpeechService.text result)) < 10)%nat) :
  App.score_speaking_audio w fs audio_bytes filename language
  = {| App.files := fs';
       App.calls := [App.CallTranscribe (App.filename_or_default filename)];
       App.reply :=
         App.HTTPException 400
           (App.Message
              "Could not extract meaningful text from audio. Please ensure clear speech.") |}
  /\ (forall text,
        App.CallPredictCefr text
        ∉ App.calls (App.score_speaking_audio w fs audio_bytes filename language))
  /\ (forall reason,
        App.reply (App.score_speaking_audio w fs audio_bytes filename language)
        <> App.HTTPException 400 (App.ValidationMessage reason))
  /\ App.reply (App.score_speaking_audio w fs audio_bytes filename language)
     <> App.HTTPException 400 (App.Message "Empty audio file").
Proof.
  assert (Hreply :
    App.score_speaking_audio w fs audio_bytes filename language
    = {| App.files := fs';
         App.calls := [App.CallTranscribe (App.filename_or_default filename)];
         App.reply :=
           App.HTTPException 400
             (App.Message
                "Could not extract meaningful text from audio. Please ensure clear speech.") |}).
  { unfold App.score_speaking_audio. cbn [App.ENABLE_WHISPER negb].
    apply transcribe_audio_bytes_Ok_nonempty in Htranscribed as Hsize.
    apply N.eqb_neq in Hsize. rewrite Hsize, Htranscribed.
    apply Nat.ltb_lt in Hshort. rewrite Hshort, orb_true_r. reflexivity. }
  rewrite Hreply. cbn [App.calls App.reply].
  split; [reflexivity |].
  split; [| split; discriminate].
  intros text Hin. apply list_elem_of_singleton in Hin. discriminate Hin.
Qed.

Lemma short_transcript_rejected_witness :
  exists result,
    (SpeechService.transcribe_audio_bytes Examples.world_mumble ∅
       Examples.payload (App.filename_or_default (Some (py "speech.wav")))
       (py "en") Transcribe false = (∅, Ok result)
     /\ (length (strip (SpeechService.text result)) < 10)%nat)
    /\ App.reply (App.score_speaking_audio Examples.world_mumble ∅
                    Examples.payload (Some (py "speech.wav")) (py "en"))
       = App.HTTPException 400
           (App.Message
              "Could not extract meaningful text from audio. Please ensure clear speech.").
Proof.
  assert (H : exists result,
             SpeechService.transcribe_audio_bytes Examples.world_mumble ∅
               Examples.payload
               (App.filename_or_default (Some (py "speech.wav")))
               (py "en") Transcribe false = (∅, Ok result)
             /\ (length (strip (SpeechService.text result)) < 10)%nat).
  { eexists. split; [vm_compute; reflexivity | vm_compute; lia]. }
  destruct H as (result & Htr & Hshort).
  exists result. split; [split; assumption |].
  rewrite (proj1 (short_transcript_rejected _ _ _ _ _ _ _ Htr Hshort)).
  reflexivity.
Defined.

(** * Further properties of the code *)

(** ** Files touched by a transcription *)

(** X1. Whatever happens (a refused extension, a failed write, a failed
    unlink, a validation error, a recogniser that raises), the
    transcription of a byte payload changes no file other than its own
    temporary file. *)
Theorem transcription_touches_only_its_temp_file (w : World)
    (fs : SpeechService.filesystem) (audio_bytes : list Byte.byte)
    (filename language : pystr) (task : whisper_task) (include_segments : bool)
    (other : pystr)
    (Hother : other <> SpeechService.temp_path_for w
                         (SpeechService.upload_suffix filename)) :
  fst (SpeechService.transcribe_audio_bytes w fs audio_bytes filename
         language task include_segments) !! other
  = fs !! other.
Proof.
  unfold SpeechService.transcribe_audio_bytes, SpeechService.temp_audio_file.
  destruct (negb (bool_decide _)); [reflexivity |].
  destruct (negb (tmp_write_ok w)); cbv beta iota zeta; cbn [fst].
  { destruct (tmp_write_failure w) as [| written | written]; cbn [fst].
    - reflexivity.
    - now rewrite lookup_insert_ne.
    - rewrite lookup_insert_eq.
      rewrite (bool_decide_eq_true_2
                 (is_Some (Some (take written audio_bytes)))) by eauto.
      destruct (unlink_ok w).
      + rewrite lookup_delete_ne, lookup_insert_ne
          by (intros E; now apply Hother).
        reflexivity.
      + now rewrite lookup_insert_ne. }
  rewrite lookup_insert_eq.
  rewrite (bool_decide_eq_true_2 (is_Some (Some audio_bytes))) by eauto.
  destruct (unlink_ok w).
  - rewrite lookup_delete_ne, lookup_insert_ne by (intros E; now apply Hother).
    reflexivity.
  - now rewrite lookup_insert_ne.
Qed.

Lemma transcription_touches_only_its_temp_file_witness :
  Examples.audio_path
  <> SpeechService.temp_path_for Examples.world_unlink_fails
       (SpeechService.upload_suffix (py "speech.wav"))
  /\ fst (SpeechService.transcribe_audio_bytes Examples.world_unlink_fails
            Examples.files Examples.payload (py "speech.wav") (py "en")
            Transcribe false) !! Examples.audio_path
     = Examples.files !! Examples.audio_path.
Proof.
  assert (H : Examples.audio_path
              <> SpeechService.temp_path_for Examples.world_unlink_fails
                   (SpeechService.upload_suffix (py "speech.wav")))
    by (vm_compute; discriminate).
  split; [exact H |].
  exact (transcription_touches_only_its_temp_file Examples.world_unlink_fails
           Examples.files Examples.payload (py "speech.wav") (py "en")
           Transcribe false Examples.audio_path H).
Defined.

(** X2. When the payload cannot be stored in the temporary file, the error
    propagates, and whether the file is cleaned up depends on where the
    error is raised.  If creating the file raises, the file system is left
    as it was.  If [write] raises, [temp_path] has not been assigned yet,
    the [finally] clause has nothing to unlink, and the file stays behind
    with the bytes written so far, even when unlinking would succeed.  If
    the error is raised when the [with] block closes the file, [temp_path]
    is set and the [finally] clause unlinks the file: nothing is left when
    [os.unlink] succeeds, and the file stays when it fails. *)
Theorem failed_write_cleanup (w : World)
    (fs : SpeechService.filesystem) (audio_bytes : list Byte.byte)
    (filename language : pystr) (task : whisper_task) (include_segments : bool)
    (Hsupported : SpeechService.upload_suffix filename
                  ∈ SpeechService.SUPPORTED_AUDIO_FORMATS)
    (Hwrite : tmp_write_ok w = false) :
  snd (SpeechService.transcribe_audio_bytes w fs audio_bytes filename
         language task include_segments) = Raise OSError
  /\ fst (SpeechService.transcribe_audio_bytes w fs audio_bytes filename
            language task include_segments)
     = match tmp_write_failure w with
       | FailsOnCreate => fs
       | FailsInWrite written =>
           <[SpeechService.temp_path_for w
               (SpeechService.upload_suffix filename)
             := take written audio_bytes]> fs
       | FailsOnClose written =>
           if unlink_ok w
           then delete (SpeechService.temp_path_for w
                          (SpeechService.upload_suffix filename)) fs
           else <[SpeechService.temp_path_for w
                    (SpeechService.upload_suffix filename)
                  := take written audio_bytes]> fs
       end.
Proof.
  unfold SpeechService.transcribe_audio_bytes, SpeechService.temp_audio_file.
  rewrite (bool_decide_eq_true_2 _ Hsupported), Hwrite. cbn [negb].
  destruct (tmp_write_failure w) as [| written | written];
    cbv zeta; cbn [fst snd]; (split; [reflexivity |]); try reflexivity.
  rewrite lookup_insert_eq.
  rewrite (bool_decide_eq_true_2 (is_Some (Some (take written audio_bytes))))
    by eauto.
  destruct (unlink_ok w); [apply delete_insert_eq | reflexivity].
Qed.

Lemma failed_write_cleanup_witness :
  (snd (SpeechService.transcribe_audio_bytes Examples.world_close_fails
          Examples.files Examples.payload (py "speech.wav") (py "en")
          Transcribe false) = Raise OSError
   /\ fst (SpeechService.transcribe_audio_bytes Examples.world_close_fails
             Examples.files Examples.payload (py "speech.wav") (py "en")
             Transcribe false)
      = delete (SpeechService.temp_path_for Examples.world_close_fails
                  (py ".wav")) Examples.files)
  /\ (snd (SpeechService.transcribe_audio_bytes Examples.world_write_fails
             Examples.files Examples.large_payload (py "speech.wav")
             (py "en") Transcribe false) = Raise OSError
      /\ fst (SpeechService.transcribe_audio_bytes Examples.world_write_fails
                Examples.files Examples.large_payload (py "speech.wav")
                (py "en") Transcribe false)
         = <[SpeechService.temp_path_for Examples.world_write_fails
               (py ".wav") := []]> Examples.files).
Proof.
  assert (H : SpeechService.upload_suffix (py "speech.wav")
              ∈ SpeechService.SUPPORTED_AUDIO_FORMATS)
    by (apply (bool_decide_unpack _); vm_compute; exact I).
  split.
  - exact (failed_write_cleanup Examples.world_close_fails Examples.files
             Examples.payload (py "speech.wav") (py "en") Transcribe false
             H eq_refl).
  - exact (failed_write_cleanup Examples.world_write_fails Examples.files
             Examples.large_payload (py "speech.wav") (py "en") Transcribe
             false H eq_refl).
Defined.

(** X3. With a fresh temporary name, a payload that can be written and an
    unlink that succeeds, both audio endpoints leave the file system exactly
    as they found it, whatever they answer. *)
Theorem audio_endpoints_restore_file_system (w : World)
    (fs : SpeechService.filesystem) (audio_bytes : list Byte.byte)
    (filename : option pystr) (language : pystr)
    (Hwrite : tmp_write_ok w = true)
    (Hunlink : unlink_ok w = true)
    (Hfresh : fs !! SpeechService.temp_path_for w
                      (SpeechService.upload_suffix
                         (App.filename_or_default filename)) = None) :
  App.files (App.score_speaking_audio w fs audio_bytes filename language) = fs
  /\ App.files (App.transcribe_audio w fs audio_bytes filename language) = fs.
Proof.
  assert (Hfs' : fst (SpeechService.transcribe_audio_bytes w fs audio_bytes
                        (App.filename_or_default filename) language
                        Transcribe false) = fs).
  { destruct (decide (SpeechService.upload_suffix
                        (App.filename_or_default filename)
                      ∈ SpeechService.SUPPORTED_AUDIO_FORMATS)) as [Hs | Hs].
    - rewrite transcribe_audio_bytes_supported by assumption.
      rewrite Hunlink. cbn [fst]. now apply delete_id.
    - now rewrite transcribe_audio_bytes_unsupported. }
  unfold App.score_speaking_audio, App.transcribe_audio.
  cbn [App.ENABLE_WHISPER negb].
  destruct (SpeechService.transcribe_audio_bytes w fs audio_bytes
              (App.filename_or_default filename) language Transcribe false)
    as [fs' r].
  cbn [fst] in Hfs'. subst fs'.
  split.
  - destruct (_ =? _)%N; [reflexivity |].
    destruct r as [result | [] ]; try reflexivity.
    destruct (_ || _); [reflexivity |].
    destruct (App.predict_cefr_and_band w _) as [[] |]; reflexivity.
  - destruct r as [result | [] ]; reflexivity.
Qed.

Lemma audio_endpoints_restore_file_system_witness :
  (tmp_write_ok Examples.world = true
   /\ unlink_ok Examples.world = true
   /\ Examples.files
      !! SpeechService.temp_path_for Examples.world
           (SpeechService.upload_suffix
              (App.filename_or_default (Some (py "speech.wav")))) = None)
  /\ App.files (App.score_speaking_audio Examples.world Examples.files
                  Examples.payload (Some (py "speech.wav")) (py "en"))
     = Examples.files.
Proof.
  split; [repeat split; reflexivity |].
  exact (proj1 (audio_endpoints_restore_file_system Examples.world
                  Examples.files Examples.payload (Some (py "speech.wav"))
                  (py "en") eq_refl eq_refl eq_refl)).
Defined.

(** ** File names and extensions *)

Lemma lower_char_plain (c k : N) :
  (k < 65)%N -> (lower_char c =? k)%N = (c =? k)%N.
Proof.
  intros Hk. unfold lower_char.
  destruct ((65 <=? c) && (c <=? 90))%N eqn:Hup; [| reflexivity].
  apply andb_true_iff in Hup as [H1 H2].
  apply N.leb_le in H1, H2.
  transitivity false; [| symmetry]; apply N.eqb_neq; lia.
Qed.

Lemma lower_char_idem (c : N) : lower_char (lower_char c) = lower_char c.
Proof.
  unfold lower_char.
  destruct ((65 <=? c) && (c <=? 90))%N eqn:Hup.
  - apply andb_true_iff in Hup as [H1 H2]. apply N.leb_le in H1, H2.
    replace ((65 <=? c + 32) && (c + 32 <=? 90))%N with false; [reflexivity |].
    symmetry. apply andb_false_iff. right. apply N.leb_gt. lia.
  - now rewrite Hup.
Qed.

Lemma lower_idem (s : pystr) : lower (lower s) = lower s.
Proof.
  unfold lower. rewrite map_map. apply map_ext. apply lower_char_idem.
Qed.

Lemma lower_eq_nil (s : pystr) : lower s = [] <-> s = [].
Proof. destruct s; simpl; split; congruence. Qed.

Lemma lower_eq_dot (s : pystr) : lower s = [dot] <-> s = [dot].
Proof.
  destruct s as [| c [| d s]]; simpl; split; try congruence.
  - intros H. injection H as H. f_equal.
    apply N.eqb_eq. rewrite <- (lower_char_plain c dot) by reflexivity.
    now apply N.eqb_eq.
  - intros H. injection H as ->. reflexivity.
Qed.

Lemma split_on_lower (s : pystr) :
  split_on slash (lower s) = map lower (split_on slash s).
Proof.
  induction s as [| c s IH]; simpl; [reflexivity |].
  rewrite (lower_char_plain c slash) by reflexivity.
  destruct (c =? slash)%N; simpl.
  - now rewrite <- IH.
  - fold (lower s). rewrite IH.
    destruct (split_on slash s); reflexivity.
Qed.

Lemma rfind_lower (s : pystr) : rfind dot (lower s) = rfind dot s.
Proof.
  induction s as [| c s IH]; simpl; [reflexivity |].
  fold (lower s). rewrite IH, (lower_char_plain c dot) by reflexivity.
  reflexivity.
Qed.

Lemma last_map_lower (l : list pystr) :
  List.last (map lower l) [] = lower (List.last l []).
Proof.
  induction l as [| x [| y l] IH]; try reflexivity.
  exact IH.
Qed.

Lemma path_name_lower (p : pystr) : path_name (lower p) = lower (path_name p).
Proof.
  unfold path_name. rewrite split_on_lower, <- last_map_lower. f_equal.
  induction (split_on slash p) as [| part parts IH]; [reflexivity |].
  cbn [List.filter map].
  match goal with
  | |- (if negb (@bool_decide _ ?d1) then _ else _)
       = map lower (if negb (@bool_decide _ ?d2) then _ else _) =>
      destruct d1 as [H1 | H1], d2 as [H2 | H2]
  end; cbn [bool_decide decide_rel negb map].
  - exact IH.
  - exfalso. apply H2. now rewrite <- lower_eq_nil, <- lower_eq_dot.
  - exfalso. apply H1. now rewrite lower_eq_nil, lower_eq_dot.
  - now rewrite IH.
Qed.

Lemma path_suffix_lower (p : pystr) :
  path_suffix (lower p) = lower (path_suffix p).
Proof.
  unfold path_suffix. rewrite path_name_lower, rfind_lower.
  destruct (rfind dot (path_name p)) as [i |]; [| reflexivity].
  unfold lower at 1. rewrite length_map.
  destruct (_ && _); [| reflexivity].
  unfold lower. apply skipn_map.
Qed.

Lemma upload_suffix_lower (filename : pystr) :
  SpeechService.upload_suffix (lower filename)
  = SpeechService.upload_suffix filename.
Proof.
  unfold SpeechService.upload_suffix.
  now rewrite path_suffix_lower, lower_idem.
Qed.

(** X4. The file name of an upload matters only through its extension, and
    case-insensitively: two names that differ in the case of their letters
    only are transcribed with the same result and the same effect on the
    file system. *)
Theorem transcription_ignores_case_of_filename (w : World)
    (fs : SpeechService.filesystem) (audio_bytes : list Byte.byte)
    (filename1 filename2 language : pystr) (task : whisper_task)
    (include_segments : bool)
    (Hcase : lower filename1 = lower filename2) :
  SpeechService.transcribe_audio_bytes w fs audio_bytes filename1 language
    task include_segments
  = SpeechService.transcribe_audio_bytes w fs audio_bytes filename2 language
      task include_segments.
Proof.
  assert (Hsuffix : SpeechService.upload_suffix filename1
                    = SpeechService.upload_suffix filename2)
    by now rewrite <- (upload_suffix_lower filename1), Hcase,
         upload_suffix_lower.
  unfold SpeechService.transcribe_audio_bytes. now rewrite Hsuffix.
Qed.

Lemma transcription_ignores_case_of_filename_witness :
  lower (py "Part2.Answer.MP3") = lower (py "part2.answer.mp3")
  /\ SpeechService.transcribe_audio_bytes Examples.world Examples.files
       Examples.payload (py "Part2.Answer.MP3") (py "en") Transcribe true
     = SpeechService.transcribe_audio_bytes Examples.world Examples.files
         Examples.payload (py "part2.answer.mp3") (py "en") Transcribe true.
Proof.
  split; [reflexivity |].
  exact (transcription_ignores_case_of_filename Examples.world Examples.files
           Examples.payload (py "Part2.Answer.MP3") (py "part2.answer.mp3")
           (py "en") Transcribe true eq_refl).
Defined.

Lemma rfind_None (c : N) (s : pystr) :
  rfind c s = None -> Forall (fun x => x <> c) s.
Proof.
  induction s as [| x s IH]; simpl; [constructor |].
  destruct (rfind c s); [discriminate |].
  destruct (x =? c)%N eqn:Hx; [discriminate |].
  intros _. constructor; [now apply N.eqb_neq | now apply IH].
Qed.

Lemma rfind_Some (c : N) (s : pystr) (i : nat) :
  rfind c s = Some i ->
  exists a b, s = a ++ c :: b /\ length a = i /\ Forall (fun x => x <> c) b.
Proof.
  revert i. induction s as [| x s IH]; intros i; simpl; [discriminate |].
  destruct (rfind c s) as [j |] eqn:Hj.
  - intros [= <-]. destruct (IH j eq_refl) as (a & b & -> & <- & Hb).
    exists (x :: a), b. auto.
  - destruct (x =? c)%N eqn:Hx; [| discriminate].
    intros [= <-]. apply N.eqb_eq in Hx. subst x.
    exists [], s. split; [reflexivity |]. split; [reflexivity |].
    now apply rfind_None.
Qed.

Lemma split_on_parts (sep : N) (s : pystr) :
  Forall (Forall (fun c => c <> sep)) (split_on sep s).
Proof.
  induction s as [| c s IH]; simpl; [repeat constructor |].
  destruct (c =? sep)%N eqn:Hc.
  - constructor; [constructor | exact IH].
  - apply N.eqb_neq in Hc.
    destruct (split_on sep s) as [| p ps]; [repeat constructor; exact Hc |].
    inversion IH as [| ? ? Hp Hps]; subst.
    constructor; [constructor; assumption | assumption].
Qed.

Lemma last_Forall {A} (P : A -> Prop) (l : list A) (d : A) :
  P d -> Forall P l -> P (List.last l d).
Proof.
  intros Hd Hl. induction Hl as [| x l Hx Hl IH]; [exact Hd |].
  destruct l; [exact Hx | exact IH].
Qed.

Lemma path_name_no_slash (p : pystr) :
  Forall (fun c => c <> slash) (path_name p).
Proof.
  unfold path_name. apply last_Forall; [constructor |].
  apply List.Forall_forall. intros part Hin.
  apply filter_In in Hin as [Hin _].
  pose proof (split_on_parts slash p) as Hparts.
  rewrite List.Forall_forall in Hparts. now apply Hparts.
Qed.

(** The suffix of a path is empty, or a dot followed by a non-empty
    extension without dot or slash. *)
Lemma path_suffix_shape (p : pystr) :
  path_suffix p = []
  \/ exists ext,
       path_suffix p = dot :: ext /\ ext <> []
       /\ Forall (fun c => c <> dot /\ c <> slash) ext.
Proof.
  unfold path_suffix.
  destruct (rfind dot (path_name p)) as [i |] eqn:Hfind; [| now left].
  destruct ((0 <? i) && (i <? length (path_name p) - 1))%nat eqn:Hrange;
    [| now left].
  right. apply andb_true_iff in Hrange as [_ Hlast].
  apply Nat.ltb_lt in Hlast.
  destruct (rfind_Some _ _ _ Hfind) as (a & b & Hname & Hlen & Hb).
  pose proof (path_name_no_slash p) as Hslash.
  rewrite Hname in Hlast, Hslash |- *.
  rewrite length_app in Hlast. simpl in Hlast.
  exists b. subst i. rewrite drop_app_length.
  split; [reflexivity |]. split; [destruct b; simpl in *; [lia | discriminate] |].
  apply Forall_app in Hslash as [_ Hslash].
  inversion Hslash as [| ? ? _ Hbslash]; subst.
  rewrite List.Forall_forall in Hb, Hbslash |- *.
  intros c Hc. split; [now apply Hb | now apply Hbslash].
Qed.

(** X5. The suffix under which an upload is stored always has the form of
    an extension: a dot followed by at least one character, none of them a
    dot, a slash or an upper-case letter; it is [.wav] when the file name
    has no extension. *)
Theorem upload_suffix_is_an_extension (filename : pystr) :
  exists ext,
    SpeechService.upload_suffix filename = dot :: ext
    /\ ext <> []
    /\ Forall (fun c => c <> dot /\ c <> slash) ext
    /\ lower ext = ext
    /\ (path_suffix filename = [] -> ext = py "wav").
Proof.
  unfold SpeechService.upload_suffix.
  destruct (path_suffix_shape filename) as [-> | (ext & -> & Hne & Hext)].
  - exists (py "wav"). repeat split; try reflexivity; try discriminate.
    repeat (constructor; [split; discriminate |]). constructor.
  - exists (lower ext).
    replace (lower (dot :: ext)) with (dot :: lower ext) by reflexivity.
    split; [reflexivity |]. split; [now rewrite lower_eq_nil |].
    split; [| split; [apply lower_idem | discriminate]].
    unfold lower. apply Forall_map.
    eapply Forall_impl; [exact Hext |]. intros c [Hd Hs]. cbv beta.
    split; intros E; apply N.eqb_eq in E;
      rewrite lower_char_plain in E by reflexivity;
      apply N.eqb_eq in E; contradiction.
Qed.

(** X6. [validate_audio_file] accepts exactly the files that exist, whose
    extension is a supported one in any case, and whose size is between
    one byte and 25 MiB inclusive. *)
Theorem validate_audio_file_accepts (fs : SpeechService.filesystem)
    (file_path : pystr) :
  SpeechService.validate_audio_file fs file_path = Ok tt
  <-> exists content,
        fs !! file_path = Some content
        /\ lower (path_suffix file_path)
           ∈ SpeechService.SUPPORTED_AUDIO_FORMATS
        /\ (0 < SpeechService.size_of content <= 25 * Spec.MiB)%N.
Proof.
  unfold SpeechService.validate_audio_file.
  destruct (fs !! file_path) as [content |].
  2: { split; [discriminate | intros (c & H & _); discriminate H]. }
  cbv zeta.
  case_bool_decide as Hsup; cbn [negb].
  2: { split; [discriminate | intros (c & _ & H & _); contradiction]. }
  change (25 * 1024 * 1024)%N with (25 * Spec.MiB)%N.
  destruct (25 * Spec.MiB <? SpeechService.size_of content)%N eqn:Hbig.
  { apply N.ltb_lt in Hbig.
    split; [discriminate | intros (c & [= <-] & _ & H); lia]. }
  apply N.ltb_ge in Hbig.
  destruct (SpeechService.size_of content =? 0)%N eqn:Hzero.
  { apply N.eqb_eq in Hzero.
    split; [discriminate | intros (c & [= <-] & _ & H); lia]. }
  apply N.eqb_neq in Hzero.
  split; [intros _ | reflexivity].
  exists content. repeat split; [assumption | lia | assumption].
Qed.

(** ** Transcripts *)

Lemma lstrip_head (s : pystr) :
  match lstrip s with
  | [] => True
  | c :: _ => isspace c = false
  end.
Proof.
  induction s as [| c s IH]; simpl; [exact I |].
  destruct (isspace c) eqn:Hc; [exact IH | exact Hc].
Qed.

Lemma lstrip_id (s : pystr) :
  match s with [] => True | c :: _ => isspace c = false end ->
  lstrip s = s.
Proof. destruct s as [| c s]; simpl; [reflexivity |]. now intros ->. Qed.

Lemma lstrip_idem (s : pystr) : lstrip (lstrip s) = lstrip s.
Proof. apply lstrip_id, lstrip_head. Qed.

Lemma lstrip_suffix (s : pystr) : exists pre, s = pre ++ lstrip s.
Proof.
  induction s as [| c s [pre IH]]; simpl; [now exists [] |].
  destruct (isspace c); [| now exists []].
  exists (c :: pre). simpl. now rewrite <- IH.
Qed.

Lemma rstrip_prefix (s : pystr) : exists post, s = rstrip s ++ post.
Proof.
  unfold rstrip. destruct (lstrip_suffix (rev s)) as [pre Hpre].
  exists (rev pre). rewrite <- rev_app_distr, <- Hpre.
  now rewrite rev_involutive.
Qed.

Lemma rstrip_head (s : pystr) :
  match s with [] => True | c :: _ => isspace c = false end ->
  match rstrip s with [] => True | c :: _ => isspace c = false end.
Proof.
  intros Hs. destruct (rstrip_prefix s) as [post Hpost].
  destruct (rstrip s) as [| c u]; [exact I |].
  rewrite Hpost in Hs. exact Hs.
Qed.

Lemma rstrip_idem (s : pystr) : rstrip (rstrip s) = rstrip s.
Proof. unfold rstrip. now rewrite rev_involutive, lstrip_idem. Qed.

Lemma strip_head (s : pystr) :
  match strip s with [] => True | c :: _ => isspace c = false end.
Proof. apply rstrip_head, lstrip_head. Qed.

Lemma strip_idem (s : pystr) : strip (strip s) = strip s.
Proof.
  unfold strip at 1. rewrite (lstrip_id (strip s)) by apply strip_head.
  unfold strip. apply rstrip_idem.
Qed.

Lemma last_rev_head {A} (l : list A) : last (rev l) = head l.
Proof. destruct l as [| x l]; [reflexivity |]. simpl. apply last_snoc. Qed.

Lemma strip_last (s : pystr) (c : N) :
  last (strip s) = Some c -> isspace c = false.
Proof.
  unfold strip, rstrip. rewrite last_rev_head.
  pose proof (lstrip_head (rev (lstrip s))) as H.
  destruct (lstrip (rev (lstrip s))); [discriminate |].
  now intros [= <-].
Qed.

(** What a successful [transcribe_audio] went through and returned. *)
Lemma transcribe_audio_Ok_inv (w : World) (fs : SpeechService.filesystem)
    (file_path language : pystr) (task : whisper_task) (inc : bool)
    (result : SpeechService.TranscriptionResult) :
  SpeechService.transcribe_audio w fs file_path language task inc = Ok result ->
  exists content out,
    fs !! file_path = Some content
    /\ SpeechService.validate_audio_file fs file_path = Ok tt
    /\ SpeechService.get_audio_duration w fs file_path <= 300
    /\ whisper_model_ok w = true
    /\ whisper_transcribe w content language task = Some out
    /\ result
       = {| SpeechService.text := strip (default [] (out_text out));
            SpeechService.language := default language (out_language out);
            SpeechService.duration :=
              SpeechService.get_audio_duration w fs file_path;
            SpeechService.segments :=
              if inc then default [] (out_segments out) else [];
            SpeechService.confidence :=
              SpeechService.segment_confidence
                (if inc then default [] (out_segments out) else []) |}.
Proof.
  intros Hresult. unfold SpeechService.transcribe_audio in Hresult.
  destruct (SpeechService.validate_audio_file fs file_path) as [[] | e]
    eqn:Hvalid; [| discriminate Hresult].
  rewrite result_bind_Ok in Hresult.
  assert (Hfile : exists content, fs !! file_path = Some content).
  { unfold SpeechService.validate_audio_file in Hvalid.
    destruct (fs !! file_path); [eauto | discriminate Hvalid]. }
  destruct Hfile as [content Hfile]. rewrite Hfile in Hresult.
  change (default [] (Some content)) with content in Hresult.
  case_Qltb SpeechService.MAX_AUDIO_DURATION_SECONDS
            (SpeechService.get_audio_duration w fs file_path);
    [discriminate Hresult |].
  destruct (whisper_model_ok w); [| discriminate Hresult].
  cbn [negb] in Hresult.
  destruct (whisper_transcribe w content language task) as [out |] eqn:Hout;
    [| discriminate Hresult].
  injection Hresult as <-.
  exists content, out. repeat split; assumption.
Qed.

Lemma transcribe_audio_bytes_Ok_inv (w : World)
    (fs fs' : SpeechService.filesystem) (audio_bytes : list Byte.byte)
    (filename language : pystr) (task : whisper_task) (inc : bool)
    (result : SpeechService.TranscriptionResult) :
  SpeechService.transcribe_audio_bytes w fs audio_bytes filename language
    task inc = (fs', Ok result) ->
  exists fs0 file_path,
    SpeechService.transcribe_audio w fs0 file_path language task inc
    = Ok result.
Proof.
  unfold SpeechService.transcribe_audio_bytes, SpeechService.temp_audio_file.
  destruct (negb (bool_decide _)); [discriminate |].
  destruct (negb (tmp_write_ok w));
    [destruct (tmp_write_failure w); discriminate |].
  cbv beta iota zeta. intros Hres. injection Hres as _ Hres. eauto.
Qed.

(** X7. The transcript of every successful transcription carries no white
    space at either end, so that stripping it again, as the audio-scoring
    endpoint does before measuring it, changes nothing. *)
Theorem transcript_is_stripped (w : World) (fs : SpeechService.filesystem)
    (file_path language : pystr) (task : whisper_task)
    (include_segments : bool) (result : SpeechService.TranscriptionResult)
    (Hresult : SpeechService.transcribe_audio w fs file_path language task
                 include_segments = Ok result) :
  strip (SpeechService.text result) = SpeechService.text result
  /\ (forall c, head (SpeechService.text result) = Some c ->
                isspace c = false)
  /\ (forall c, last (SpeechService.text result) = Some c ->
                isspace c = false).
Proof.
  destruct (transcribe_audio_Ok_inv _ _ _ _ _ _ _ Hresult)
    as (content & out & _ & _ & _ & _ & _ & ->).
  cbn [SpeechService.text].
  split; [apply strip_idem |]. split.
  - intros c Hc. pose proof (strip_head (default [] (out_text out))) as H.
    destruct (strip (default [] (out_text out))); [discriminate |].
    injection Hc as <-. exact H.
  - intros c. apply strip_last.
Qed.

Lemma transcript_is_stripped_witness :
  exists result,
    SpeechService.transcribe_audio Examples.world Examples.files
      Examples.audio_path (py "en") Transcribe false = Ok result
    /\ strip (SpeechService.text result) = SpeechService.text result.
Proof.
  eexists. split; [vm_compute; reflexivity |].
  exact (proj1 (transcript_is_stripped Examples.world Examples.files
                  Examples.audio_path (py "en") Transcribe false _ eq_refl)).
Defined.

(** ** Speaking replies *)

Lemma list_to_map_zip_seq {V} (l : list V) (k i : nat) :
  (list_to_map (zip (seq k (length l)) l) : gmap nat V) !! i
  = if decide (k <= i)%nat then l !! (i - k)%nat else None.
Proof.
  revert k. induction l as [| x l IH]; intros k; simpl.
  - rewrite lookup_empty. now destruct (decide _).
  - rewrite lookup_insert. destruct (decide (k = i)) as [-> | Hne].
    + rewrite decide_True by lia. now rewrite Nat.sub_diag.
    + rewrite IH. destruct (decide (k <= i)%nat) as [Hle | Hgt].
      * rewrite decide_True by lia.
        replace (i - k)%nat with (S (i - S k)) by lia. reflexivity.
      * now rewrite decide_False by lia.
Qed.

Lemma dict_of_enumerate_lookup {V} (l : list V) (i : nat) :
  dict_of_enumerate l !! i = l !! i.
Proof.
  unfold dict_of_enumerate. rewrite list_to_map_zip_seq.
  rewrite decide_True by lia. now rewrite Nat.sub_0_r.
Qed.

Lemma speaking_reply_of_index (m : nat) (cefr : string) :
  App.ID2LABEL !! m = Some cefr ->
  (cefr, default 0.0 (App.CEFR_TO_IELTS !! cefr),
   App.build_speaking_feedback cefr (default 0.0 (App.CEFR_TO_IELTS !! cefr)))
  ∈ Spec.speaking_replies.
Proof.
  unfold App.ID2LABEL. rewrite dict_of_enumerate_lookup.
  do 6 (destruct m as [| m];
        [intros [= <-];
         repeat first [apply list_elem_of_here | apply list_elem_of_further] |]).
  discriminate.
Qed.

Lemma predict_cefr_and_band_Ok_inv (w : World) (text : pystr)
    (cefr : string) (band : Q) :
  App.predict_cefr_and_band w text = Ok (cefr, band) ->
  exists m, App.ID2LABEL !! m = Some cefr
            /\ band = default 0.0 (App.CEFR_TO_IELTS !! cefr).
Proof.
  unfold App.predict_cefr_and_band.
  destruct (App.get_speaking_model w) as [[] | e]; [| discriminate].
  rewrite result_bind_Ok.
  destruct (np_argmax (speaking_logits w text)) as [m | e]; [| discriminate].
  rewrite result_bind_Ok. unfold getitem.
  destruct (App.ID2LABEL !! m) as [label |] eqn:Hm; [| discriminate].
  rewrite result_bind_Ok. intros [= <- <-]. eauto.
Qed.

(** X8. Every successful reply of the text-scoring endpoint is one of six:
    the level is one of A1..C2, the band is the one [CEFR_TO_IELTS] gives
    that level (never the default 0.0), and the feedback is the lowest
    bundle for A1 and A2, the middle one for B1 and the highest for B2, C1
    and C2; the text scored has at least 10 characters. *)
Theorem score_text_reply_is_one_of_six (w : World) (answer_text : pystr)
    (body : App.SpeakingTextResponse.t)
    (Hreply : App.score_speaking_text w answer_text = App.Http200 body) :
  (10 <= length answer_text)%nat
  /\ (App.SpeakingTextResponse.cefr_level body,
      App.SpeakingTextResponse.approx_ielts_band body,
      App.SpeakingTextResponse.feedback body)
     ∈ Spec.speaking_replies.
Proof.
  unfold App.score_speaking_text in Hreply.
  destruct (length answer_text <? 10)%nat eqn:Hlen; [discriminate Hreply |].
  apply Nat.ltb_ge in Hlen. split; [exact Hlen |].
  destruct (App.predict_cefr_and_band w answer_text) as [[cefr band] | e]
    eqn:Hpred; [| discriminate Hreply].
  injection Hreply as <-.
  cbn [App.SpeakingTextResponse.cefr_level
       App.SpeakingTextResponse.approx_ielts_band
       App.SpeakingTextResponse.feedback].
  destruct (predict_cefr_and_band_Ok_inv _ _ _ _ Hpred) as (m & Hm & ->).
  now apply speaking_reply_of_index with m.
Qed.

Lemma score_text_reply_is_one_of_six_witness :
  exists body,
    App.score_speaking_text Examples.world Examples.essay = App.Http200 body
    /\ (App.SpeakingTextResponse.cefr_level body,
        App.SpeakingTextResponse.approx_ielts_band body,
        App.SpeakingTextResponse.feedback body)
       ∈ Spec.speaking_replies.
Proof.
  eexists. split; [vm_compute; reflexivity |].
  exact (proj2 (score_text_reply_is_one_of_six Examples.world Examples.essay
                  _ eq_refl)).
Defined.

Lemma word_count_positive (s : pystr) :
  match s with [] => False | c :: _ => isspace c = false end ->
  (1 <= word_count s)%nat.
Proof.
  destruct s as [| c s]; [contradiction |].
  intros Hc. unfold word_count. simpl. rewrite Hc. lia.
Qed.

(** X9. Every successful reply of the audio-scoring endpoint carries a
    transcript of at least 10 characters with no white space at either end
    and at least one word, a duration of at most 300 seconds, and no
    confidence (segments are never requested); its level, band and feedback
    are one of the six combinations of the text-scoring endpoint; the
    upload was not empty, and the endpoint called the transcription and
    then the speaking model on that transcript, in this order. *)
Theorem score_audio_reply_shape (w : World) (fs : SpeechService.filesystem)
    (audio_bytes : list Byte.byte) (filename : option pystr)
    (language : pystr) (body : App.SpeakingAudioResponse.t)
    (Hreply : App.reply (App.score_speaking_audio w fs audio_bytes filename
                           language) = App.Http200 body) :
  audio_bytes <> []
  /\ (10 <= length (App.SpeakingAudioResponse.transcript body))%nat
  /\ strip (App.SpeakingAudioResponse.transcript body)
     = App.SpeakingAudioResponse.transcript body
  /\ App.TranscriptInfo.word_count
       (App.SpeakingAudioResponse.transcript_info body)
     = word_count (App.SpeakingAudioResponse.transcript body)
  /\ (1 <= word_count (App.SpeakingAudioResponse.transcript body))%nat
  /\ App.TranscriptInfo.duration_seconds
       (App.SpeakingAudioResponse.transcript_info body) <= 300
  /\ App.TranscriptInfo.confidence
       (App.SpeakingAudioResponse.transcript_info body) = None
  /\ (App.SpeakingAudioResponse.cefr_level body,
      App.SpeakingAudioResponse.approx_ielts_band body,
      App.SpeakingAudioResponse.feedback body)
     ∈ Spec.speaking_replies
  /\ App.calls (App.score_speaking_audio w fs audio_bytes filename language)
     = [App.CallTranscribe (App.filename_or_default filename);
        App.CallPredictCefr (App.SpeakingAudioResponse.transcript body)].
Proof.
  unfold App.score_speaking_audio in *. cbn [App.ENABLE_WHISPER negb] in *.
  destruct (SpeechService.size_of audio_bytes =? 0)%N eqn:Hsize;
    [discriminate Hreply |].
  split; [intros ->; discriminate Hsize |].
  destruct (SpeechService.transcribe_audio_bytes w fs audio_bytes
              (App.filename_or_default filename) language Transcribe false)
    as [fs' r] eqn:Htr.
  destruct r as [result | e]; [| destruct e; discriminate Hreply].
  destruct (transcribe_audio_bytes_Ok_inv _ _ _ _ _ _ _ _ _ Htr)
    as (fs0 & file_path & Hfile).
  destruct (transcribe_audio_Ok_inv _ _ _ _ _ _ _ Hfile)
    as (content & out & _ & _ & Hdur & _ & _ & Hresult).
  destruct (bool_decide (SpeechService.text result = [])
            || (length (strip (SpeechService.text result)) <? 10)%nat)
    eqn:Hshort; [discriminate Hreply |].
  apply orb_false_iff in Hshort as [_ Hshort]. apply Nat.ltb_ge in Hshort.
  destruct (App.predict_cefr_and_band w (SpeechService.text result))
    as [[cefr band] | e] eqn:Hpred; [| discriminate Hreply].
  cbn [App.reply App.calls] in *. injection Hreply as <-.
  cbn [App.SpeakingAudioResponse.transcript
       App.SpeakingAudioResponse.transcript_info
       App.SpeakingAudioResponse.cefr_level
       App.SpeakingAudioResponse.approx_ielts_band
       App.SpeakingAudioResponse.feedback
       App.TranscriptInfo.word_count App.TranscriptInfo.duration_seconds
       App.TranscriptInfo.confidence].
  assert (Hstripped : strip (SpeechService.text result)
                      = SpeechService.text result)
    by (rewrite Hresult; apply strip_idem).
  rewrite Hstripped in Hshort.
  split; [exact Hshort |]. split; [exact Hstripped |].
  split; [reflexivity |].
  split.
  { apply word_count_positive. rewrite <- Hstripped.
    pose proof (strip_head (SpeechService.text result)) as Hhead.
    rewrite Hstripped in Hhead |- *.
    destruct (SpeechService.text result); [simpl in Hshort; lia | exact Hhead]. }
  split; [rewrite Hresult; exact Hdur |].
  split; [rewrite Hresult; reflexivity |].
  split; [| reflexivity].
  destruct (predict_cefr_and_band_Ok_inv _ _ _ _ Hpred) as (m & Hm & ->).
  now apply speaking_reply_of_index with m.
Qed.

Lemma score_audio_reply_shape_witness :
  exists body,
    App.reply (App.score_speaking_audio Examples.world ∅ Examples.payload
                 (Some (py "speech.wav")) (py "en")) = App.Http200 body
    /\ App.TranscriptInfo.confidence
         (App.SpeakingAudioResponse.transcript_info body) = None.
Proof.
  eexists. split; [vm_compute; reflexivity |].
  pose proof (score_audio_reply_shape Examples.world ∅ Examples.payload
                (Some (py "speech.wav")) (py "en") _ eq_refl) as H.
  exact (proj1 (proj2 (proj2 (proj2 (proj2 (proj2 (proj2 H))))))).
Defined.

(** ** Writing predictions for any number of classes *)

Lemma writing_band_classes_distinct : NoDup App.WRITING_BAND_CLASSES.
Proof.
  apply (NoDup_fmap_1 Qnum). apply (bool_decide_unpack _).
  vm_compute. exact I.
Qed.

Lemma writing_band_class_nth (i : nat) :
  (i < 12)%nat -> nth i App.WRITING_BAND_CLASSES 0 ∈ App.WRITING_BAND_CLASSES.
Proof.
  intros Hi. apply list_elem_of_In, nth_In. exact Hi.
Qed.

(** The indices [np.argsort(probs)[::-1][:3]] for any number of classes. *)
Lemma top_indices_any (probs : list Q) :
  let top := take 3 (rev (np_argsort probs)) in
  length top = min 3 (length probs)
  /\ NoDup top
  /\ Forall (fun i => (i < length probs)%nat) top
  /\ StronglySorted (flip (key_le (fun i => nth i probs 0))) top.
Proof.
  assert (Hperm : Permutation (rev (np_argsort probs)) (seq 0 (length probs))).
  { rewrite <- (np_argsort_perm probs). symmetry. apply Permutation_rev. }
  pose proof (StronglySorted_rev_flip _ _ (np_argsort_sorted probs)) as Hsorted.
  cbv zeta. repeat split.
  - rewrite length_take, (Permutation_length Hperm), length_seq. reflexivity.
  - eapply sublist_NoDup; [| apply sublist_take].
    rewrite Hperm. apply NoDup_seq.
  - apply Forall_take. rewrite Hperm. apply Forall_forall.
    intros i Hi. apply elem_of_seq in Hi. lia.
  - rewrite <- (take_drop 3 (rev (np_argsort probs))) in Hsorted.
    now apply StronglySorted_app_1_l in Hsorted.
Qed.

(** X10. For a writing model with between 1 and 12 classes,
    [predict_writing_band] succeeds and returns min(3, n) top predictions,
    of pairwise distinct bands taken from the band classes, in
    non-increasing order of probability and none more probable than the
    confidence; the band returned is one of the band classes too. *)
Theorem predict_writing_band_any_class_count (w : World) (essay : pystr)
    (Hclasses : (1 <= length (writing_probs w essay) <= 12)%nat) :
  exists r,
    App.predict_writing_band w essay = Ok r
    /\ length (App.predicted_top r) = min 3 (length (writing_probs w essay))
    /\ NoDup (map App.band (App.predicted_top r))
    /\ Forall (fun p => App.band p ∈ App.WRITING_BAND_CLASSES)
              (App.predicted_top r)
    /\ App.predicted_band r ∈ App.WRITING_BAND_CLASSES
    /\ Forall (fun p => App.probability p <= App.predicted_confidence r)
              (App.predicted_top r)
    /\ StronglySorted
         (fun p q => App.probability q <= App.probability p)
         (App.predicted_top r).
Proof.
  destruct (np_argmax_spec (writing_probs w essay))
    as (m & Hm & Hlt & Hmax & _).
  { intros E. rewrite E in Hclasses. simpl in Hclasses. lia. }
  destruct (top_indices_any (writing_probs w essay))
    as (Hlen & Hnodup & Hidx & Hsorted).
  set (top := take 3 (rev (np_argsort (writing_probs w essay)))) in *.
  assert (Hidx12 : Forall (fun i => (i < 12)%nat) top).
  { eapply Forall_impl; [exact Hidx |]. intros i Hi. cbv beta in *. lia. }
  eexists. split.
  { unfold App.predict_writing_band.
    rewrite Hm, result_bind_Ok. fold top.
    rewrite (top_predictions_of_entries _ _ Hidx12), result_bind_Ok.
    rewrite writing_band_lookup, result_bind_Ok by lia. reflexivity. }
  cbn [App.predicted_top App.predicted_band App.predicted_confidence].
  split; [now rewrite length_map |].
  split.
  { rewrite map_map. cbn [Spec.entry App.band].
    apply (NoDup_fmap_2_strong (fun i => nth i App.WRITING_BAND_CLASSES 0));
      [| exact Hnodup].
    intros i j Hi Hj Heq. rewrite Forall_forall in Hidx12.
    apply (proj1 (NoDup_nth App.WRITING_BAND_CLASSES 0));
      [apply NoDup_ListNoDup, writing_band_classes_distinct
      | apply Hidx12, Hi | apply Hidx12, Hj | exact Heq]. }
  split.
  { apply Forall_map. eapply Forall_impl; [exact Hidx12 |].
    intros i Hi. apply writing_band_class_nth. exact Hi. }
  split; [apply writing_band_class_nth; lia |].
  split.
  { apply Forall_map. eapply Forall_impl; [exact Hidx |].
    intros i Hi. apply Hmax. exact Hi. }
  clear -Hsorted. induction Hsorted as [| i l Hl IH Hi]; [constructor |].
  simpl. constructor; [exact IH |].
  apply Forall_map. exact Hi.
Qed.

Lemma predict_writing_band_any_class_count_witness :
  (1 <= length (writing_probs Examples.world_two_classes Examples.essay)
   <= 12)%nat
  /\ exists r,
       App.predict_writing_band Examples.world_two_classes Examples.essay
       = Ok r
       /\ length (App.predicted_top r) = 2%nat.
Proof.
  assert (H : (1 <= length (writing_probs Examples.world_two_classes
                              Examples.essay) <= 12)%nat)
    by (simpl; lia).
  split; [exact H |].
  destruct (predict_writing_band_any_class_count
              Examples.world_two_classes Examples.essay H)
    as (r & Hr & Hlen & _).
  exists r. split; [exact Hr | exact Hlen].
Defined.

(** ** Feedback bundles *)

(** X11. The criteria of a feedback bundle do not depend on the band: a
    writing bundle of [app.py] has exactly the four writing criteria, one
    of [writing_service.py] these four with [level] and [suggestion], and a
    speaking bundle, in [app.py] and in [speaking_service.py], exactly the
    four speaking criteria. *)
Theorem feedback_criteria (band : Q) (cefr : string) :
  dom (App.build_writing_feedback band)
  = list_to_set Spec.writing_criteria
  /\ dom (WritingService.build_writing_feedback band)
     = list_to_set (Spec.writing_criteria ++ ["level"; "suggestion"]%string)
  /\ dom (App.build_speaking_feedback cefr band)
     = list_to_set ["fluency_coherence"; "vocabulary"; "grammar";
                    "pronunciation"]%string
  /\ dom (SpeakingService.build_speaking_feedback cefr band)
     = list_to_set ["fluency_coherence"; "vocabulary"; "grammar";
                    "pronunciation"]%string.
Proof.
  unfold App.build_writing_feedback, WritingService.build_writing_feedback,
    App.build_speaking_feedback, SpeakingService.build_speaking_feedback.
  repeat split;
    repeat (match goal with
            | |- context [if Qltb ?a ?b then _ else _] =>
                destruct (Qltb a b); cbv iota
            end);
    lazymatch goal with |- dom ?bundle = _ => unfold bundle end;
    rewrite dom_list_to_map_L; reflexivity.
Qed.

Lemma bucket_index_mono (thresholds : list Q) (band1 band2 : Q) :
  band1 <= band2 ->
  (Spec.bucket_index thresholds band1
   <= Spec.bucket_index thresholds band2)%nat.
Proof.
  intros Hle. induction thresholds as [| t rest IH]; simpl; [lia |].
  case_Qltb band1 t; [lia |].
  case_Qltb band2 t; [| lia].
  exfalso. apply (Qlt_irrefl t).
  apply Qle_lt_trans with band2; [| assumption].
  now apply Qle_trans with band1.
Qed.

(** X12. Feedback never goes down as the band goes up: of two bands, the
    larger one is answered with a bundle at least as high in the table, in
    the writing tables of [app.py] and [writing_service.py] and in the
    speaking table. *)
Theorem feedback_bucket_monotone (band1 band2 : Q) (cefr1 cefr2 : string)
    (Hle : band1 <= band2) :
  exists i1 i2 j1 j2 k1 k2,
    (i1 <= i2 < 5 /\ j1 <= j2 < 5 /\ k1 <= k2 < 3)%nat
    /\ App.build_writing_feedback band1
       = nth i1 (Spec.bundles Spec.writing) ∅
    /\ App.build_writing_feedback band2
       = nth i2 (Spec.bundles Spec.writing) ∅
    /\ WritingService.build_writing_feedback band1
       = nth j1 Spec.service_bundles ∅
    /\ WritingService.build_writing_feedback band2
       = nth j2 Spec.service_bundles ∅
    /\ App.build_speaking_feedback cefr1 band1
       = nth k1 (Spec.bundles Spec.speaking) ∅
    /\ App.build_speaking_feedback cefr2 band2
       = nth k2 (Spec.bundles Spec.speaking) ∅.
Proof.
  exists (Spec.bucket_index (Spec.thresholds Spec.writing) band1),
         (Spec.bucket_index (Spec.thresholds Spec.writing) band2),
         (Spec.bucket_index Spec.service_thresholds band1),
         (Spec.bucket_index Spec.service_thresholds band2),
         (Spec.bucket_index (Spec.thresholds Spec.speaking) band1),
         (Spec.bucket_index (Spec.thresholds Spec.speaking) band2).
  split.
  { pose proof (bucket_index_mono (Spec.thresholds Spec.writing) _ _ Hle).
    pose proof (bucket_index_mono Spec.service_thresholds _ _ Hle).
    pose proof (bucket_index_mono (Spec.thresholds Spec.speaking) _ _ Hle).
    assert (Hbound : forall ths b,
               (Spec.bucket_index ths b <= length ths)%nat).
    { intros ths b. induction ths as [| t ths IH]; simpl; [lia |].
      destruct (Qltb b t); lia. }
    pose proof (Hbound (Spec.thresholds Spec.writing) band2).
    pose proof (Hbound Spec.service_thresholds band2).
    pose proof (Hbound (Spec.thresholds Spec.speaking) band2).
    simpl length in *. lia. }
  split; [apply writing_feedback_bucket |].
  split; [apply writing_feedback_bucket |].
  split; [apply service_writing_feedback_bucket |].
  split; [apply service_writing_feedback_bucket |].
  split; apply speaking_feedback_bucket.
Qed.

Lemma feedback_bucket_monotone_witness :
  5.5 <= 7.0
  /\ exists i1 i2,
       (i1 <= i2)%nat
       /\ App.build_writing_feedback 5.5 = nth i1 (Spec.bundles Spec.writing) ∅
       /\ App.build_writing_feedback 7.0 = nth i2 (Spec.bundles Spec.writing) ∅.
Proof.
  assert (H : 5.5 <= 7.0) by (unfold Qle; simpl; lia).
  split; [exact H |].
  destruct (feedback_bucket_monotone 5.5 7.0 "B1" "C1" H)
    as (i1 & i2 & j1 & j2 & k1 & k2 & Hi & H1 & H2 & _).
  exists i1, i2. split; [lia | split; assumption].
Defined.

(** ** The Whisper model manager *)

Lemma whisper_manager_step (self : SpeechService.WhisperModelManager.t)
    (u : SpeechService.WhisperModelManager.use) :
  SpeechService.WhisperModelManager._model_size self
  ∈ SpeechService.MODEL_SIZES ->
  (forall m, SpeechService.WhisperModelManager._model self = Some m ->
             m = SpeechService.WhisperModelManager._model_size self) ->
  SpeechService.WhisperModelManager._model_size
    (SpeechService.WhisperModelManager.after_use self u)
  ∈ SpeechService.MODEL_SIZES
  /\ (forall m,
        SpeechService.WhisperModelManager._model
          (SpeechService.WhisperModelManager.after_use self u) = Some m ->
        m = SpeechService.WhisperModelManager._model_size
              (SpeechService.WhisperModelManager.after_use self u)).
Proof.
  intros Hsize Hmodel. destruct u as [load_ok | size]; simpl.
  - unfold SpeechService.WhisperModelManager.model,
      SpeechService.WhisperModelManager._load_model.
    destruct (SpeechService.WhisperModelManager._model self) eqn:Hm.
    + simpl. rewrite Hm. auto.
    + destruct (load_ok _); simpl; [| rewrite Hm; auto].
      split; [exact Hsize | now intros m [= <-]].
  - unfold SpeechService.WhisperModelManager.change_model_size.
    case_bool_decide as Hin; cbn [negb]; [| simpl; auto].
    case_bool_decide as Hsame; cbn [negb]; simpl; [auto |].
    split; [exact Hin | discriminate].
Qed.

(** X13. Whatever the sequence of accesses to the model and of size
    changes, and whether they succeed or raise, the configured size of the
    Whisper manager is one of the five valid sizes and a loaded model is
    always the model of the configured size. *)
Theorem whisper_manager_model_matches_size
    (uses : list SpeechService.WhisperModelManager.use) :
  SpeechService.WhisperModelManager._model_size
    (SpeechService.WhisperModelManager.after_uses uses
       SpeechService.WhisperModelManager.initial)
  ∈ SpeechService.MODEL_SIZES
  /\ (forall m,
        SpeechService.WhisperModelManager._model
          (SpeechService.WhisperModelManager.after_uses uses
             SpeechService.WhisperModelManager.initial) = Some m ->
        m = SpeechService.WhisperModelManager._model_size
              (SpeechService.WhisperModelManager.after_uses uses
                 SpeechService.WhisperModelManager.initial)).
Proof.
  unfold SpeechService.WhisperModelManager.after_uses.
  assert (Hinit :
    SpeechService.WhisperModelManager._model_size
      SpeechService.WhisperModelManager.initial ∈ SpeechService.MODEL_SIZES
    /\ (forall m,
          SpeechService.WhisperModelManager._model
            SpeechService.WhisperModelManager.initial = Some m ->
          m = SpeechService.WhisperModelManager._model_size
                SpeechService.WhisperModelManager.initial)).
  { split; [| discriminate]. apply (bool_decide_unpack _). vm_compute. exact I. }
  revert Hinit. generalize SpeechService.WhisperModelManager.initial.
  induction uses as [| u uses IH]; intros self Hself; [exact Hself |].
  simpl. apply IH. destruct Hself. now apply whisper_manager_step.
Qed.

(** X14. The Whisper model is loaded once and then reused: an access that
    returns a model leaves the manager in a state where every further access
    returns that same model without calling [whisper.load_model], even if
    loading would now fail; an access that raises leaves the manager as it
    was, so that the next access tries again. *)
Theorem whisper_model_loaded_once (load_ok later_ok : string -> bool)
    (self : SpeechService.WhisperModelManager.t) :
  match SpeechService.WhisperModelManager.model load_ok self with
  | (self', loads, Ok m) =>
      is_Some m
      /\ (length loads <= 1)%nat
      /\ SpeechService.WhisperModelManager.model later_ok self'
         = (self', [], Ok m)
  | (self', loads, Raise e) =>
      self' = self
      /\ loads = [SpeechService.WhisperModelManager._model_size self]
  end.
Proof.
  unfold SpeechService.WhisperModelManager.model,
    SpeechService.WhisperModelManager._load_model.
  destruct (SpeechService.WhisperModelManager._model self) as [m |] eqn:Hm.
  - rewrite Hm. split; [eauto |]. split; [simpl; lia | reflexivity].
  - destruct (load_ok _); simpl; [| auto].
    split; [eauto |]. split; [lia | reflexivity].
Qed.

(** X15. [change_model_size] raises [ValueError] for a size outside the
    five valid ones and then changes nothing; asked for the current size it
    keeps the loaded model; asked for another valid size it drops the model,
    and the next access loads a model of the new size. *)
Theorem change_model_size_forces_reload (size : string)
    (load_ok : string -> bool) (self : SpeechService.WhisperModelManager.t) :
  match SpeechService.WhisperModelManager.change_model_size size self with
  | (self', Raise e) =>
      e = ValueError /\ (size ∉ SpeechService.MODEL_SIZES) /\ self' = self
  | (self', Ok _) =>
      size ∈ SpeechService.MODEL_SIZES
      /\ SpeechService.WhisperModelManager._model_size self' = size
      /\ (if bool_decide
               (size = SpeechService.WhisperModelManager._model_size self)
          then self' = self
          else snd (fst (SpeechService.WhisperModelManager.model load_ok
                           self'))
               = [size])
  end.
Proof.
  unfold SpeechService.WhisperModelManager.change_model_size.
  case_bool_decide as Hin; cbn [negb]; [| auto].
  case_bool_decide as Hsame; cbn [negb].
  - auto.
  - split; [exact Hin |]. split; [reflexivity |].
    unfold SpeechService.WhisperModelManager.model,
      SpeechService.WhisperModelManager._load_model. simpl.
    destruct (load_ok size); reflexivity.
Qed.

(** ** The model manager of the application *)

Lemma speaking_available_kept (cls : App.ModelManager.t)
    (u : App.ModelManager.use) (b : bool) :
  App.ModelManager._speaking_available cls = Some b ->
  App.ModelManager._speaking_available (App.ModelManager.after_use cls u)
  = Some b.
Proof.
  intros Hb.
  assert (Hcheck : forall h,
             App.ModelManager.check_speaking_available h cls = cls).
  { intros h. unfold App.ModelManager.check_speaking_available.
    now rewrite Hb. }
  destruct u as [h | h]; simpl.
  - now rewrite Hcheck.
  - unfold App.ModelManager.get_speaking_model.
    rewrite Hcheck, Hb. cbv zeta.
    destruct b; simpl; [| first [exact Hb | reflexivity]].
    destruct (App.ModelManager._speaking_model cls); simpl;
      [first [exact Hb | reflexivity] |].
    destruct (App.speaking_tokenizer_loads h); simpl;
      [| first [exact Hb | reflexivity]].
    destruct (App.speaking_model_loads h); simpl;
      first [exact Hb | reflexivity].
Qed.

Lemma speaking_available_set (u : App.ModelManager.use) :
  App.ModelManager._speaking_available
    (App.ModelManager.after_use App.ModelManager.initial u)
  = Some (App.speaking_dir_exists (App.ModelManager.host_of u)).
Proof.
  destruct u as [h | h]; simpl; [reflexivity |].
  unfold App.ModelManager.get_speaking_model.
  destruct h as [wt wm sd st sm wi wl]. simpl.
  destruct sd; simpl; [| reflexivity].
  destruct st; simpl; [| reflexivity].
  destruct sm; reflexivity.
Qed.

(** X16. The speaking model directory is looked for once: the answer found
    by the first use of the manager is kept for good.  After any further
    uses, and whatever has since happened to the directory,
    [is_speaking_available] gives that first answer, and when it was
    negative [get_speaking_model] raises [FileNotFoundError] without looking
    again. *)
Theorem speaking_availability_checked_once (first : App.ModelManager.use)
    (later : list App.ModelManager.use) (now : App.Host) :
  snd (App.ModelManager.is_speaking_available now
         (App.ModelManager.after_uses (first :: later)
            App.ModelManager.initial))
  = App.speaking_dir_exists (App.ModelManager.host_of first)
  /\ (App.speaking_dir_exists (App.ModelManager.host_of first) = false ->
      snd (App.ModelManager.get_speaking_model now
             (App.ModelManager.after_uses (first :: later)
                App.ModelManager.initial))
      = Raise FileNotFoundError).
Proof.
  assert (Hkept :
    App.ModelManager._speaking_available
      (App.ModelManager.after_uses (first :: later) App.ModelManager.initial)
    = Some (App.speaking_dir_exists (App.ModelManager.host_of first))).
  { unfold App.ModelManager.after_uses. simpl.
    pose proof (speaking_available_set first) as Hfirst. revert Hfirst.
    generalize (App.ModelManager.after_use App.ModelManager.initial first).
    induction later as [| u later IH]; intros cls Hcls; [exact Hcls |].
    simpl. apply IH. now apply speaking_available_kept. }
  assert (Hcheck :
    App.ModelManager.check_speaking_available now
      (App.ModelManager.after_uses (first :: later) App.ModelManager.initial)
    = App.ModelManager.after_uses (first :: later) App.ModelManager.initial).
  { unfold App.ModelManager.check_speaking_available. now rewrite Hkept. }
  split.
  - unfold App.ModelManager.is_speaking_available.
    rewrite Hcheck, Hkept. reflexivity.
  - intros Hmissing. unfold App.ModelManager.get_speaking_model.
    rewrite Hcheck, Hkept, Hmissing. reflexivity.
Qed.

(** X17. The server starts exactly when the writing tokenizer and model
    load, the speaking tokenizer and model load if their directory exists,
    the import of the speech service raises nothing but an [ImportError],
    and the Whisper model of the default size loads if that import
    succeeds.  The import runs [services/__init__.py], which imports
    [writing_service], and that module loads a model of its own while it is
    imported: what it raises, unless it is an [ImportError], aborts the
    start, although [app.py] has loaded its writing model by then.  A
    missing speaking directory or a missing Whisper package never prevents
    the start; a speaking or Whisper model that fails to load does.  Once
    started, the writing model is loaded, the speaking model is loaded
    exactly if its directory exists, and the Whisper service is set, with
    its model loaded, exactly if [writing_service] and [whisper] could be
    imported. *)
Theorem startup_succeeds_iff (h : App.Host) :
  match App.lifespan h App.no_modules App.ModelManager.initial
          SpeechService.WhisperModelManager.initial with
  | Ok (modules, cls, whisper) =>
      (App.writing_tokenizer_loads h = true
       /\ App.writing_model_loads h = true
       /\ (App.speaking_dir_exists h = true ->
           App.speaking_tokenizer_loads h = true
           /\ App.speaking_model_loads h = true)
       /\ (forall e, App.writing_service_import h <> App.RaisesOther e)
       /\ (App.writing_service_import h = App.Imported ->
           App.whisper_importable h = true ->
           App.whisper_loads h SpeechService.WHISPER_MODEL_SIZE = true))
      /\ App.ModelManager._writing_model cls = true
      /\ App.ModelManager._speaking_model cls = App.speaking_dir_exists h
      /\ (App.ModelManager._whisper_service cls = true
          <-> App.writing_service_import h = App.Imported
              /\ App.whisper_importable h = true)
      /\ SpeechService.WhisperModelManager._model whisper
         = (if App.ModelManager._whisper_service cls
            then Some SpeechService.WHISPER_MODEL_SIZE else None)
      /\ (App.services modules = true
          <-> App.writing_service_import h = App.Imported)
  | Raise e =>
      ~ (App.writing_tokenizer_loads h = true
         /\ App.writing_model_loads h = true
         /\ (App.speaking_dir_exists h = true ->
             App.speaking_tokenizer_loads h = true
             /\ App.speaking_model_loads h = true)
         /\ (forall e, App.writing_service_import h <> App.RaisesOther e)
         /\ (App.writing_service_import h = App.Imported ->
             App.whisper_importable h = true ->
             App.whisper_loads h SpeechService.WHISPER_MODEL_SIZE = true))
  end.
Proof.
  destruct h as [wt wm sd st sm wsi wi wl].
  unfold App.lifespan, App.ModelManager.get_writing_model,
    App.ModelManager.is_speaking_available,
    App.ModelManager.get_speaking_model,
    App.ModelManager.check_speaking_available,
    App.ModelManager.get_whisper_service, App.import_speech_service,
    App.import_services, SpeechService.preload_model,
    SpeechService.WhisperModelManager.model,
    SpeechService.WhisperModelManager._load_model.
  cbn -[SpeechService.WHISPER_MODEL_SIZE].
  destruct wt, wm, sd, st, sm, wsi as [| | raised], wi;
    cbn -[SpeechService.WHISPER_MODEL_SIZE];
    try (destruct (wl SpeechService.WHISPER_MODEL_SIZE) eqn:Hwl;
         cbn -[SpeechService.WHISPER_MODEL_SIZE]);
    try (intros (H1 & H2 & H3 & H4 & H5);
         first [discriminate
               | destruct (H3 eq_refl); discriminate
               | exact (H4 _ eq_refl)
               | specialize (H5 eq_refl eq_refl); discriminate]);
    repeat split; try reflexivity; try discriminate; auto;
    try (intros []; discriminate); try (intros; congruence).
Qed.

(** ** Probabilities of the CEFR levels *)

(** Normalising six positive numbers gives six probabilities. *)
Lemma normalise_six (e0 e1 e2 e3 e4 e5 : Q) :
  0 < e0 -> 0 < e1 -> 0 < e2 -> 0 < e3 -> 0 < e4 -> 0 < e5 ->
  let total := py_sum [e0; e1; e2; e3; e4; e5] in
  0 < total
  /\ py_sum (map (fun e => e / total) [e0; e1; e2; e3; e4; e5]) == 1
  /\ Forall (fun e => 0 < e / total /\ e / total <= 1)
            [e0; e1; e2; e3; e4; e5].
Proof.
  intros H0 H1 H2 H3 H4 H5. cbv zeta.
  assert (Htotal : py_sum [e0; e1; e2; e3; e4; e5]
                   == e0 + e1 + e2 + e3 + e4 + e5).
  { unfold py_sum. cbn [fold_left]. ring. }
  assert (Hpos : 0 < py_sum [e0; e1; e2; e3; e4; e5]) by (rewrite Htotal; lra).
  revert Htotal Hpos. generalize (py_sum [e0; e1; e2; e3; e4; e5]).
  intros total Htotal Hpos.
  split; [exact Hpos |]. split.
  - unfold py_sum. cbn [map fold_left].
    transitivity ((e0 + e1 + e2 + e3 + e4 + e5) / total); [field; lra |].
    rewrite <- Htotal. field. lra.
  - assert (Hone : forall e, 0 < e -> e <= total ->
                             0 < e / total /\ e / total <= 1).
    { intros e He Hle. split.
      - apply Qlt_shift_div_l; [exact Hpos | lra].
      - apply Qle_shift_div_r; [exact Hpos | lra]. }
    repeat (constructor; [apply Hone; lra |]). constructor.
Qed.

(** X18. When the speaking model is present and answers with six logits,
    [get_cefr_probabilities] returns a dictionary over exactly the six CEFR
    labels whose values are positive, at most 1 and sum to 1; and the level
    [predict_cefr_and_band] predicts for the same text carries the largest
    of these probabilities.  ([np.exp] is any positive, non-decreasing
    function.) *)
Theorem cefr_probabilities_form_a_distribution (exp : Q -> Q) (w : World)
    (text : pystr)
    (Hpositive : forall x, 0 < exp x)
    (Hmonotone : forall a b, a <= b -> exp a <= exp b)
    (Hmodel : speaking_model_exists w = true)
    (Hlogits : length (speaking_logits w text) = 6%nat) :
  exists d cefr band,
    SpeakingService.get_cefr_probabilities exp w text = Returns d
    /\ dom d = list_to_set SpeakingService.CEFR_LABELS
    /\ (forall label p, d !! label = Some p -> 0 < p /\ p <= 1)
    /\ py_sum (map (fun label => default 0 (d !! label))
                   SpeakingService.CEFR_LABELS) == 1
    /\ SpeakingService.predict_cefr_and_band w text = Ok (cefr, band)
    /\ (forall label p, d !! label = Some p -> p <= default 0 (d !! cefr)).
Proof.
  destruct (np_argmax_spec (speaking_logits w text))
    as (m & Hm & Hlt & Hmax & _); [intros E; rewrite E in Hlogits; discriminate |].
  rewrite Hlogits in Hlt, Hmax.
  unfold SpeakingService.get_cefr_probabilities,
    SpeakingService.predict_cefr_and_band, SpeakingService._load_model.
  rewrite Hmodel, result_bind_Ok, Hm, result_bind_Ok.
  destruct (speaking_logits w text) as [| l0 [| l1 [| l2 [| l3 [| l4 [| l5 [| ? ?]]]]]]];
    try discriminate Hlogits.
  destruct (np_max [l0; l1; l2; l3; l4; l5]) as [largest | e] eqn:Hlargest;
    [| discriminate Hlargest].
  cbv zeta. cbn [map].
  assert (Hbest : forall j, (j < 6)%nat ->
             nth j (map (fun l => exp (l - largest)) [l0; l1; l2; l3; l4; l5])
                   (exp (0 - largest))
             <= nth m (map (fun l => exp (l - largest))
                           [l0; l1; l2; l3; l4; l5])
                      (exp (0 - largest))).
  { intros j Hj.
    rewrite !(map_nth (fun l => exp (l - largest))).
    apply Hmonotone. specialize (Hmax j Hj). lra. }
  clear Hmax. cbn [map] in Hbest.
  destruct (normalise_six (exp (l0 - largest)) (exp (l1 - largest))
              (exp (l2 - largest)) (exp (l3 - largest))
              (exp (l4 - largest)) (exp (l5 - largest)))
    as (Hpos & Hsum & Hrange); try apply Hpositive.
  cbn [map] in Hsum.
  revert Hpos Hsum Hrange Hbest.
  generalize (py_sum [exp (l0 - largest); exp (l1 - largest);
                      exp (l2 - largest); exp (l3 - largest);
                      exp (l4 - largest); exp (l5 - largest)]).
  generalize (exp (0 - largest)).
  generalize (exp (l0 - largest)) (exp (l1 - largest)) (exp (l2 - largest))
    (exp (l3 - largest)) (exp (l4 - largest)) (exp (l5 - largest)).
  clear Hlargest Hm Hlogits.
  intros e0 e1 e2 e3 e4 e5 other total Hpos Hsum Hrange Hbest.
  pose proof (Hbest 0%nat ltac:(lia)) as B0.
  pose proof (Hbest 1%nat ltac:(lia)) as B1.
  pose proof (Hbest 2%nat ltac:(lia)) as B2.
  pose proof (Hbest 3%nat ltac:(lia)) as B3.
  pose proof (Hbest 4%nat ltac:(lia)) as B4.
  pose proof (Hbest 5%nat ltac:(lia)) as B5.
  clear Hbest. cbn [nth] in B0, B1, B2, B3, B4, B5.
  assert (Hdiv : forall a b, a <= b -> a / total <= b / total).
  { intros a b Hab. unfold Qdiv. apply Qmult_le_compat_r; [exact Hab |].
    apply Qinv_le_0_compat. lra. }
  set (d := (<["C2"%string := e5 / total]>
             (<["C1"%string := e4 / total]>
              (<["B2"%string := e3 / total]>
               (<["B1"%string := e2 / total]>
                (<["A2"%string := e1 / total]>
                 (<["A1"%string := e0 / total]> ∅)))))) : gmap string Q).
  assert (Hcases : forall label p, d !! label = Some p ->
            (label = "A1"%string /\ p = e0 / total)
            \/ (label = "A2"%string /\ p = e1 / total)
            \/ (label = "B1"%string /\ p = e2 / total)
            \/ (label = "B2"%string /\ p = e3 / total)
            \/ (label = "C1"%string /\ p = e4 / total)
            \/ (label = "C2"%string /\ p = e5 / total)).
  { intros label p. unfold d.
    repeat (rewrite lookup_insert; destruct (decide _) as [<- | _];
            [intros [= <-]; tauto |]).
    rewrite lookup_empty. discriminate. }
  inversion Hrange as [| ? ? R0 Hrange1]; subst.
  inversion Hrange1 as [| ? ? R1 Hrange2]; subst.
  inversion Hrange2 as [| ? ? R2 Hrange3]; subst.
  inversion Hrange3 as [| ? ? R3 Hrange4]; subst.
  inversion Hrange4 as [| ? ? R4 Hrange5]; subst.
  inversion Hrange5 as [| ? ? R5 _]; subst.
  clear Hrange Hrange1 Hrange2 Hrange3 Hrange4 Hrange5.
  assert (Hreturn : forall cefr,
            SpeakingService.ID2LABEL !! m = Some cefr ->
            exists pm, d !! cefr = Some pm
                       /\ (forall label p, d !! label = Some p -> p <= pm)).
  { intros cefr. unfold SpeakingService.ID2LABEL.
    rewrite dict_of_enumerate_lookup.
    do 6 (destruct m as [| m];
          [intros [= <-]; eexists; split; [reflexivity |];
           intros label p Hp; cbn [nth] in B0, B1, B2, B3, B4, B5;
           destruct (Hcases label p Hp)
             as [[_ ->] | [[_ ->] | [[_ ->] | [[_ ->] | [[_ ->] | [_ ->]]]]]];
           apply Hdiv; assumption |]).
    lia. }
  destruct (SpeakingService.ID2LABEL !! m) as [cefr |] eqn:Hlabel.
  2: { exfalso. unfold SpeakingService.ID2LABEL in Hlabel.
       rewrite dict_of_enumerate_lookup in Hlabel.
       apply lookup_ge_None in Hlabel. simpl in Hlabel. lia. }
  destruct (Hreturn cefr eq_refl) as (pm & Hpm & Hlargest).
  exists d, cefr, (default 0.0 (SpeakingService.CEFR_TO_IELTS !! cefr)).
  split; [reflexivity |].
  split.
  { unfold d. rewrite !dom_insert_L, dom_empty_L.
    unfold SpeakingService.CEFR_LABELS. cbn [list_to_set foldr].
    set_solver. }
  split.
  { intros label p Hp.
    destruct (Hcases label p Hp)
      as [[_ ->] | [[_ ->] | [[_ ->] | [[_ ->] | [[_ ->] | [_ ->]]]]]];
      assumption. }
  split.
  { exact Hsum. }
  split.
  { unfold getitem. rewrite Hlabel, result_bind_Ok. reflexivity. }
  rewrite Hpm. exact Hlargest.
Qed.

Lemma cefr_probabilities_form_a_distribution_witness :
  ((forall x, 0 < Examples.sample_exp x)
   /\ (forall a b, a <= b -> Examples.sample_exp a <= Examples.sample_exp b)
   /\ speaking_model_exists Examples.world = true
   /\ length (speaking_logits Examples.world Examples.essay) = 6%nat)
  /\ exists d,
       SpeakingService.get_cefr_probabilities Examples.sample_exp
         Examples.world Examples.essay = Returns d
       /\ dom d = list_to_set SpeakingService.CEFR_LABELS.
Proof.
  assert (Hpositive : forall x, 0 < Examples.sample_exp x).
  { intros x. unfold Examples.sample_exp. case_Qltb x 0; lra. }
  assert (Hmonotone : forall a b,
             a <= b -> Examples.sample_exp a <= Examples.sample_exp b).
  { intros a b Hab. unfold Examples.sample_exp.
    case_Qltb a 0; case_Qltb b 0; lra. }
  split; [repeat split; [exact Hpositive | exact Hmonotone] |].
  destruct (cefr_probabilities_form_a_distribution Examples.sample_exp
              Examples.world Examples.essay Hpositive Hmonotone
              eq_refl eq_refl)
    as (d & cefr & band & Hd & Hdom & _).
  exists d. split; [exact Hd | exact Hdom].
Defined.

Lemma label_probabilities_short (probs : list Q) (labels : list string)
    (d : gmap string Q) (i : nat) :
  (i <= length probs)%nat ->
  (length probs - i < length labels)%nat ->
  SpeakingService.label_probabilities d labels i probs
  = RaisesIndexError (length probs).
Proof.
  revert d i. induction labels as [| label rest IH]; intros d i Hi Hshort;
    simpl in *; [lia |].
  destruct (probs !! i) as [p |] eqn:Hp.
  - apply lookup_lt_Some in Hp. apply IH; lia.
  - apply lookup_ge_None in Hp. f_equal. lia.
Qed.

(** X19. A speaking model that answers with fewer than six logits still
    gets a level and a band from [predict_cefr_and_band], but
    [get_cefr_probabilities] raises [IndexError] at the first label that has
    no logit. *)
Theorem cefr_probabilities_need_six_logits (exp : Q -> Q) (w : World)
    (text : pystr)
    (Hmodel : speaking_model_exists w = true)
    (Hlogits : (1 <= length (speaking_logits w text) < 6)%nat) :
  SpeakingService.get_cefr_probabilities exp w text
  = RaisesIndexError (length (speaking_logits w text))
  /\ exists cefr band,
       SpeakingService.predict_cefr_and_band w text = Ok (cefr, band)
       /\ cefr ∈ SpeakingService.CEFR_LABELS.
Proof.
  destruct (np_argmax_spec (speaking_logits w text))
    as (m & Hm & Hlt & _).
  { intros E. rewrite E in Hlogits. simpl in Hlogits. lia. }
  split.
  - unfold SpeakingService.get_cefr_probabilities, SpeakingService._load_model.
    rewrite Hmodel.
    destruct (np_max (speaking_logits w text)) as [largest | e] eqn:Hmax.
    2: { destruct (speaking_logits w text); [simpl in Hlogits; lia |].
         discriminate Hmax. }
    cbv zeta. rewrite label_probabilities_short;
      rewrite !length_map; simpl; [reflexivity | lia | lia].
  - destruct (cefr_of_index m ltac:(lia))
      as (cefr & band & Hs & _ & Hin & Hband & _).
    exists cefr, band. split; [| exact Hin].
    unfold SpeakingService.predict_cefr_and_band, SpeakingService._load_model.
    rewrite Hmodel, result_bind_Ok, Hm, result_bind_Ok, Hs, result_bind_Ok,
      Hband.
    reflexivity.
Qed.

Lemma cefr_probabilities_need_six_logits_witness :
  (speaking_model_exists Examples.world_five_logits = true
   /\ (1 <= length (speaking_logits Examples.world_five_logits Examples.essay)
       < 6)%nat)
  /\ SpeakingService.get_cefr_probabilities Examples.sample_exp
       Examples.world_five_logits Examples.essay
     = RaisesIndexError 5.
Proof.
  assert (H : (1 <= length (speaking_logits Examples.world_five_logits
                              Examples.essay) < 6)%nat)
    by (simpl; lia).
  split; [split; [reflexivity | exact H] |].
  exact (proj1 (cefr_probabilities_need_six_logits Examples.sample_exp
                  Examples.world_five_logits Examples.essay eq_refl H)).
Defined.

(** ** Reported limits *)

(** X20. The limits [get_whisper_info] reports are the ones enforced, as
    far as the duration can be measured: every file that [transcribe_audio]
    transcribes has one of the reported formats and at least one byte and
    at most the reported number of MiB; if the file can be decoded, its
    decoded duration is at most the reported one and is the duration of the
    result; a file that cannot be decoded is transcribed with the duration
    0 in the result, whatever its length.  This holds whatever the state
    of the manager. *)
Theorem reported_limits_are_enforced (cuda_available : bool)
    (manager : SpeechService.WhisperModelManager.t) (w : World)
    (fs : SpeechService.filesystem) (file_path language : pystr)
    (task : whisper_task) (include_segments : bool)
    (result : SpeechService.TranscriptionResult)
    (Hresult : SpeechService.transcribe_audio w fs file_path language task
                 include_segments = Ok result) :
  exists content,
    fs !! file_path = Some content
    /\ lower (path_suffix file_path)
       ∈ SpeechService.supported_formats
           (SpeechService.get_whisper_info cuda_available manager)
    /\ (0 < SpeechService.size_of content
        <= SpeechService.max_file_size_mb
             (SpeechService.get_whisper_info cuda_available manager)
           * Spec.MiB)%N
    /\ match Spec.decoded_duration w content with
       | Some decoded =>
           decoded <= SpeechService.max_duration_seconds
                        (SpeechService.get_whisper_info cuda_available
                           manager)
           /\ SpeechService.duration result == decoded
       | None => SpeechService.duration result == 0
       end.
Proof.
  destruct (transcribe_audio_Ok_inv _ _ _ _ _ _ _ Hresult)
    as (content & out & Hfile & Hvalid & Hduration & _ & _ & ->).
  exists content. split; [exact Hfile |].
  cbn [SpeechService.get_whisper_info SpeechService.supported_formats
       SpeechService.max_file_size_mb SpeechService.max_duration_seconds
       SpeechService.duration].
  unfold SpeechService.validate_audio_file in Hvalid.
  rewrite Hfile in Hvalid. cbv zeta in Hvalid.
  case_bool_decide as Hsup; cbn [negb] in Hvalid; [| discriminate Hvalid].
  change (25 * 1024 * 1024)%N with (25 * Spec.MiB)%N in Hvalid.
  destruct (25 * Spec.MiB <? SpeechService.size_of content)%N eqn:Hbig;
    [discriminate Hvalid |].
  destruct (SpeechService.size_of content =? 0)%N eqn:Hzero;
    [discriminate Hvalid |].
  apply N.ltb_ge in Hbig. apply N.eqb_neq in Hzero.
  split; [exact Hsup |]. split; [lia |].
  unfold SpeechService.get_audio_duration in *. rewrite Hfile in *.
  unfold Spec.decoded_duration.
  destruct (load_audio w content) as [samples |]; cbn [fmap option_fmap option_map].
  - split; [exact Hduration | reflexivity].
  - reflexivity.
Qed.

Lemma reported_limits_are_enforced_witness :
  exists result,
    SpeechService.transcribe_audio Examples.world Examples.files
      Examples.audio_path (py "en") Transcribe false = Ok result
    /\ match Spec.decoded_duration Examples.world Examples.payload with
       | Some decoded =>
           decoded <= SpeechService.max_duration_seconds
                        (SpeechService.get_whisper_info false
                           SpeechService.WhisperModelManager.initial)
           /\ SpeechService.duration result == decoded
       | None => SpeechService.duration result == 0
       end.
Proof.
  eexists. split; [vm_compute; reflexivity |].
  destruct (reported_limits_are_enforced false
              SpeechService.WhisperModelManager.initial Examples.world
              Examples.files Examples.audio_path (py "en") Transcribe false
              _ eq_refl)
    as (content & Hfile & _ & _ & H).
  assert (Hcontent : content = Examples.payload).
  { unfold Examples.files in Hfile. rewrite lookup_singleton_eq in Hfile.
    congruence. }
  rewrite Hcontent in H. exact H.
Defined.
